(** * The violation rule engine of ai-compliance-vision

    A shallow embedding of [src/violation_engine.py]: the rule store that
    [ViolationEngine.__init__] loads, the condition lookup, the bounding-box
    geometry and [ViolationEngine.evaluate], followed by the properties the
    design document states about them.

    Python floats are IEEE 754 binary64 values, so they are modelled by
    Rocq's primitive floats, which compute with the same arithmetic.
    What the engine takes from outside of Python's arithmetic, the [pow] of
    the C library behind [**] and the Unicode case mappings behind
    [str.lower] and [str.upper], is a parameter of the development.
    Python dictionaries keep insertion order and the lookup order of the
    rule store is observable, so they are association lists.  Methods of the
    engine run in a small state-and-exception monad over the engine object. *)

From Stdlib Require Import String Ascii List ZArith Floats Bool Lia Permutation
  DecimalString.
Import ListNotations.

Set Warnings "-inexact-float,-register-all,-abstract-large-number".

Local Open Scope string_scope.
Local Open Scope list_scope.

(** ** Values produced by [json.load] *)

Inductive json : Type :=
| JNull
| JBool (b : bool)
| JInt (z : Z)
| JFloat (f : float)
| JString (s : string)
| JArray (l : list json)
| JObject (d : list (string * json)).

(** ** Python dictionaries with string keys, in insertion order *)

Module PyDict.

Definition t (V : Type) : Type := list (string * V).

(** [d.get(key)]: the value stored under [key], if any. *)
Fixpoint get {V} (d : t V) (key : string) : option V :=
  match d with
  | [] => None
  | (k, v) :: d' => if String.eqb k key then Some v else get d' key
  end.

(** [d[key] = v]: an existing key keeps its position, a new key goes last. *)
Fixpoint set {V} (d : t V) (key : string) (v : V) : t V :=
  match d with
  | [] => [(key, v)]
  | (k, w) :: d' =>
      if String.eqb k key then (k, v) :: d' else (k, w) :: set d' key v
  end.

End PyDict.

(** ** Case mapping of ASCII text

    On text that is ASCII throughout, [str.lower] and [str.upper] map the
    twenty-six letters and leave every other character as it is. *)

Definition is_upper (c : ascii) : bool :=
  (65 <=? nat_of_ascii c)%nat && (nat_of_ascii c <=? 90)%nat.

Definition is_lower (c : ascii) : bool :=
  (97 <=? nat_of_ascii c)%nat && (nat_of_ascii c <=? 122)%nat.

Definition lower_char (c : ascii) : ascii :=
  if is_upper c then ascii_of_nat (nat_of_ascii c + 32) else c.

Definition upper_char (c : ascii) : ascii :=
  if is_lower c then ascii_of_nat (nat_of_ascii c - 32) else c.

Fixpoint str_map (f : ascii -> ascii) (s : string) : string :=
  match s with
  | EmptyString => EmptyString
  | String c s' => String (f c) (str_map f s')
  end.

Definition ascii_lower : string -> string := str_map lower_char.
Definition ascii_upper : string -> string := str_map upper_char.

Fixpoint is_ascii (s : string) : bool :=
  match s with
  | EmptyString => true
  | String c s' => (nat_of_ascii c <? 128)%nat && is_ascii s'
  end.

(** ** What the interpreter and the C library supply

    A Python string is kept as its UTF-8 text.  [str.lower] and [str.upper]
    follow the Unicode tables of the interpreter (one character may become
    several, some characters of different case share one lower case), so
    they are taken as they come; on ASCII text they are the two functions
    above.  [float.__pow__] hands ordinary operands to [pow] of the C
    library, whose last bit differs between libraries, and reads [errno]
    after the call. *)

Inductive errno : Type :=
| NoError   (* [errno] is still 0 *)
| ERANGE
| EDOM.     (* stands for every other value *)

Class Runtime : Type := {
  pow : float -> float -> float * errno;
  lower : string -> string;
  upper : string -> string;
  lower_ascii : forall s, is_ascii s = true -> lower s = ascii_lower s;
  upper_ascii : forall s, is_ascii s = true -> upper s = ascii_upper s
}.

(** ** Exceptions and the engine monad *)

Inductive exn : Type :=
| OSError            (* [open] or the scan of the directory failed;
                        [PermissionError] is one *)
| JSONDecodeError    (* [json.load] rejected the document *)
| UnicodeDecodeError (* the document is not UTF-8 text *)
| AttributeError     (* [.items()] or [.get()] on a value that is no dict *)
| OverflowError      (* [**] when [pow] reports a result out of range *)
| ValueError.        (* [**] when [pow] reports any other error *)

Definition result (A : Type) : Type := (exn + A)%type.

(** The engine object: its only attribute is [self.standards]. *)
Record ViolationEngine : Type := mkEngine {
  standards : PyDict.t json
}.

(** A method body: it receives [self], may assign its attributes, and either
    returns a value or raises. *)
Definition M (A : Type) : Type :=
  ViolationEngine -> ViolationEngine * result A.

Definition ret {A} (a : A) : M A := fun self => (self, inr a).

Definition raise {A} (e : exn) : M A := fun self => (self, inl e).

Definition bind {A B} (m : M A) (k : A -> M B) : M B :=
  fun self =>
    match m self with
    | (self', inr a) => k a self'
    | (self', inl e) => (self', inl e)
    end.

Definition lift {A} (r : result A) : M A := fun self => (self, r).

Definition get_standards : M (PyDict.t json) :=
  fun self => (self, inr (standards self)).

Definition set_standards (d : PyDict.t json) : M unit :=
  fun _ => (mkEngine d, inr tt).

Declare Scope engine_scope.
Delimit Scope engine_scope with engine.
Notation "x <- m ;; k" := (bind m (fun x => k))
  (at level 61, m at next level, right associativity) : engine_scope.
Notation "m ;; k" := (bind m (fun _ => k))
  (at level 61, right associativity) : engine_scope.
Local Open Scope engine_scope.

(** A [for] loop whose body updates a local variable [acc]. *)
Fixpoint for_each {A S} (xs : list A) (body : A -> S -> M S) (acc : S) : M S :=
  match xs with
  | [] => ret acc
  | x :: xs' => acc' <- body x acc ;; for_each xs' body acc'
  end.

(** ** The rule-definition directory

    [Path.glob] and [Path.stem] belong to pathlib and [open] and [json.load]
    to the runtime, so the directory is given by what they produce: the
    documents that [glob("*.json")] yields, in the order it yields them,
    each with its stem and with the outcome of opening and parsing it.
    On a path that is no directory, and on a directory whose entries may
    not be listed ([scandir] raises [PermissionError], which [glob]
    swallows), [glob] yields nothing and raises nothing.  Before it lists
    anything [glob] asks whether the path is a directory, and an error of
    that question other than the path being absent is raised to the caller:
    so it is for a path below a directory that may not be searched
    ([Inaccessible]).  The scan cannot fail once it has listed the
    directory. *)

Record json_file : Type := mkFile {
  stem : string;
  load : result json
}.

Inductive directory : Type :=
| Missing        (* no such path, or the path is no directory *)
| Unreadable     (* a directory whose entries may not be listed *)
| Inaccessible   (* a path that may not be examined *)
| Listing (files : list json_file).

Definition glob_json (d : directory) : result (list json_file) :=
  match d with
  | Missing => inr []
  | Unreadable => inr []
  | Inaccessible => inl OSError
  | Listing files => inr files
  end.

Section WithRuntime.

Context {rt : Runtime}.

(** ** Loading the rule store *)

Definition _load_standards (dir : directory) : M unit :=
  files <- lift (glob_json dir) ;;
  for_each files
    (fun json_file (_ : unit) =>
       data <- lift (load json_file) ;;
       let standard_name := lower (stem json_file) in
       d <- get_standards ;;
       set_standards (PyDict.set d standard_name data))
    tt.

Definition __init__ (standards_dir : directory) : M unit :=
  set_standards [] ;;
  _load_standards standards_dir.

(** [ViolationEngine(standards_dir)]: a fresh object is initialised; when
    [__init__] raises, the exception reaches the caller and the object does
    not. *)
Definition new_ViolationEngine (standards_dir : directory)
  : result ViolationEngine :=
  match __init__ standards_dir (mkEngine []) with
  | (self, inr _) => inr self
  | (_, inl e) => inl e
  end.

(** ** Condition lookup *)

Record rule_match : Type := mkMatch {
  m_standard : string;
  m_citation : string;
  m_description : json;
  m_severity : json
}.

(** [mapping.items()] *)
Definition items (v : json) : M (list (string * json)) :=
  match v with
  | JObject d => ret d
  | _ => raise AttributeError
  end.

(** [entry.get(key, default)] *)
Definition get (v : json) (key : string) (default : json) : M json :=
  match v with
  | JObject d =>
      ret match PyDict.get d key with Some x => x | None => default end
  | _ => raise AttributeError
  end.

(** [value == condition] for a string [condition] *)
Definition eq_str (v : json) (condition : string) : bool :=
  match v with
  | JString s => String.eqb s condition
  | _ => false
  end.

Definition _lookup_condition (condition : string) : M (list rule_match) :=
  stds <- get_standards ;;
  for_each stds
    (fun '(std_name, mapping) matches =>
       its <- items mapping ;;
       for_each its
         (fun '(citation, entry) matches =>
            c <- get entry "condition" JNull ;;
            if eq_str c condition then
              description <- get entry "description" (JString "") ;;
              severity <- get entry "severity" (JString "") ;;
              ret (matches ++ [mkMatch (upper std_name) citation
                                       description severity])
            else ret matches)
         matches)
    [].

(** ** Bounding-box geometry *)

Local Open Scope float_scope.

Definition bbox_t : Type := (float * float * float * float)%type.

Definition _bbox_center (bbox : bbox_t) : float * float :=
  let '(x1, y1, x2, y2) := bbox in
  ((x1 + x2) / 2, (y1 + y2) / 2).

(** What [float.__pow__] does with [errno] after the call of [pow]: a
    result that is infinite is taken for a range error also when the
    library did not report one, and a range error on a result that is zero
    is an underflow and is dropped. *)
Definition _Py_ADJUST_ERANGE1 (ix : float) (e : errno) : errno :=
  match e with
  | NoError => if PrimFloat.is_infinity ix then ERANGE else NoError
  | ERANGE => if ix =? 0 then NoError else ERANGE
  | EDOM => EDOM
  end.

(** [v ** 2], as [float.__pow__] computes it for the exponent 2: a NaN is
    returned as it is, an infinity gives its absolute value, a zero gives
    0.0 and plus or minus one gives 1.0, all without the C library; any
    other base is made positive and handed to [pow], and an [errno] that
    is left after the adjustment above becomes [OverflowError] when it is
    [ERANGE] and [ValueError] otherwise. *)
Definition pow2 (v : float) : result float :=
  if PrimFloat.is_nan v then inr v
  else if PrimFloat.is_infinity v then inr (PrimFloat.abs v)
  else if v =? 0 then inr 0
  else
    let iv := if v <? 0 then - v else v in
    if iv =? 1 then inr 1
    else
      let (ix, e) := pow iv 2 in
      match _Py_ADJUST_ERANGE1 ix e with
      | NoError => inr ix
      | ERANGE => inl OverflowError
      | EDOM => inl ValueError
      end.

(** Sequencing of computations that may raise, outside of any method. *)
Definition and_then {A B} (r : result A) (k : A -> result B) : result B :=
  match r with
  | inl e => inl e
  | inr a => k a
  end.

Definition _euclidean_distance (p1 p2 : float * float) : result float :=
  and_then (pow2 (fst p1 - fst p2)) (fun dx2 =>
  and_then (pow2 (snd p1 - snd p2)) (fun dy2 =>
  inr (PrimFloat.sqrt (dx2 + dy2)))).

(** [min(a, b)] of Python: the second argument wins only when it is
    strictly smaller. *)
Definition py_min (a b : float) : float := if b <? a then b else a.

(** ** Detections and violations *)

(** A detection as [detect_image] builds it: the four keys are always
    present and the box always has four coordinates. *)
Record Detection : Type := mkDetection {
  class_name : string;
  condition : string;
  confidence : float;
  bbox : bbox_t
}.

Inductive Evidence : Type :=
| SingleBox (box : bbox_t) (cls : string)
| TwoBoxes (person_bbox forklift_bbox : bbox_t).

Record Violation : Type := mkViolation {
  v_standard : string;
  v_citation : string;
  v_description : json;
  v_severity : json;
  v_confidence : float;
  v_evidence : Evidence
}.

(** [{**match, "confidence": c, "evidence": ev}] *)
Definition with_match (m : rule_match) (c : float) (ev : Evidence)
  : Violation :=
  mkViolation (m_standard m) (m_citation m) (m_description m)
              (m_severity m) c ev.

Definition threshold : float := 200.

Definition proximity_condition : string := "forklift_pedestrian_proximity".

Definition has_condition (c : string) (d : Detection) : bool :=
  String.eqb (condition d) c.

(** Truth value of a list. *)
Definition truthy {A} (l : list A) : bool :=
  match l with [] => false | _ :: _ => true end.

Definition evaluate (detections : list Detection) : M (list Violation) :=
  violations <-
    for_each detections
      (fun det violations =>
         matches <- _lookup_condition (condition det) ;;
         for_each matches
           (fun m violations =>
              ret (violations ++
                   [with_match m (confidence det)
                      (SingleBox (bbox det) (class_name det))]))
           violations)
      [] ;;
  let persons := filter (has_condition "person") detections in
  let forklifts := filter (has_condition "forklift") detections in
  if truthy persons && truthy forklifts then
    for_each persons
      (fun person violations =>
         let p_center := _bbox_center (bbox person) in
         for_each forklifts
           (fun forklift violations =>
              let f_center := _bbox_center (bbox forklift) in
              distance <- lift (_euclidean_distance p_center f_center) ;;
              if distance <? threshold then
                matches <- _lookup_condition proximity_condition ;;
                for_each matches
                  (fun m violations =>
                     let c := py_min (confidence person)
                                     (confidence forklift) in
                     ret (violations ++
                          [with_match m c
                             (TwoBoxes (bbox person) (bbox forklift))]))
                  violations
              else ret violations)
           violations)
      violations
  else ret violations.

(** ** What the design document says, as pure functions

    These definitions follow the wording of the design document: lookup
    returns every entry of every loaded standard whose condition equals the
    given one; the evaluator emits the direct violations, then the compound
    ones.  They are compared with the methods above in the theorems. *)

(** A document is usable when it is an object whose values are objects. *)
Definition is_object (v : json) : bool :=
  match v with JObject _ => true | _ => false end.

Definition fields_of (v : json) : PyDict.t json :=
  match v with JObject d => d | _ => [] end.

Definition doc_ok (mapping : json) : bool :=
  is_object mapping && forallb (fun p => is_object (snd p)) (fields_of mapping).

Definition store_ok (stds : PyDict.t json) : bool :=
  forallb (fun p => doc_ok (snd p)) stds.

Definition field (entry : json) (key : string) (default : json) : json :=
  match PyDict.get (fields_of entry) key with
  | Some x => x
  | None => default
  end.

Definition applies_to (entry : json) (c : string) : bool :=
  eq_str (field entry "condition" JNull) c.

Definition rule_entry (std_name citation : string) (entry : json)
  : rule_match :=
  mkMatch (upper std_name) citation
          (field entry "description" (JString ""))
          (field entry "severity" (JString "")).

Definition lookup_entry (c std_name : string) (p : string * json)
  : list rule_match :=
  if applies_to (snd p) c then [rule_entry std_name (fst p) (snd p)] else [].

Definition lookup_doc (c : string) (p : string * json) : list rule_match :=
  flat_map (lookup_entry c (fst p)) (fields_of (snd p)).

Definition lookup (stds : PyDict.t json) (c : string) : list rule_match :=
  flat_map (lookup_doc c) stds.

Definition direct_violation (det : Detection) (m : rule_match) : Violation :=
  with_match m (confidence det) (SingleBox (bbox det) (class_name det)).

Definition direct_violations (stds : PyDict.t json) (dets : list Detection)
  : list Violation :=
  flat_map (fun det => map (direct_violation det) (lookup stds (condition det)))
           dets.

Definition center_distance (a b : Detection) : result float :=
  _euclidean_distance (_bbox_center (bbox a)) (_bbox_center (bbox b)).

Definition close (person forklift : Detection) : bool :=
  match center_distance person forklift with
  | inr distance => distance <? threshold
  | inl _ => false
  end.

(** The distance of the pair can be computed: neither square raises. *)
Definition measurable (person forklift : Detection) : bool :=
  match center_distance person forklift with
  | inr _ => true
  | inl _ => false
  end.

Definition pairs_ok (dets : list Detection) : bool :=
  forallb (fun person =>
             forallb (measurable person)
                     (filter (has_condition "forklift") dets))
          (filter (has_condition "person") dets).

(** The exception of the first pair, in the order of the nested loops,
    whose distance cannot be computed. *)
Fixpoint first_error {A} (err : A -> option exn) (l : list A) : option exn :=
  match l with
  | [] => None
  | x :: l' =>
      match err x with
      | Some e => Some e
      | None => first_error err l'
      end
  end.

Definition distance_error (person forklift : Detection) : option exn :=
  match center_distance person forklift with
  | inl e => Some e
  | inr _ => None
  end.

Definition pair_error (dets : list Detection) : option exn :=
  first_error (fun person =>
                 first_error (distance_error person)
                             (filter (has_condition "forklift") dets))
              (filter (has_condition "person") dets).

Definition compound_violation (person forklift : Detection) (m : rule_match)
  : Violation :=
  with_match m (py_min (confidence person) (confidence forklift))
             (TwoBoxes (bbox person) (bbox forklift)).

Definition pair_violations (stds : PyDict.t json)
  (person forklift : Detection) : list Violation :=
  if close person forklift
  then map (compound_violation person forklift)
           (lookup stds proximity_condition)
  else [].

Definition compound_violations (stds : PyDict.t json) (dets : list Detection)
  : list Violation :=
  flat_map (fun person =>
              flat_map (pair_violations stds person)
                       (filter (has_condition "forklift") dets))
           (filter (has_condition "person") dets).

(** The (person, forklift) pairs that pass the distance test, in the order
    the nested loops visit them. *)
Definition qualifying_pairs (dets : list Detection)
  : list (Detection * Detection) :=
  flat_map (fun person =>
              flat_map (fun forklift =>
                          if close person forklift
                          then [(person, forklift)] else [])
                       (filter (has_condition "forklift") dets))
           (filter (has_condition "person") dets).

(** Some entry of some loaded standard carries condition [c]. *)
Definition mentioned (stds : PyDict.t json) (c : string) : bool :=
  existsb (fun p => existsb (fun q => applies_to (snd q) c)
                            (fields_of (snd p)))
          stds.

(** A method that never assigns an attribute of the engine. *)
Definition read_only {A} (m : M A) : Prop :=
  forall self, fst (m self) = self.

(** The first document, in glob order, that cannot be opened or parsed. *)
Fixpoint first_failure (files : list json_file) : option exn :=
  match files with
  | [] => None
  | f :: files' =>
      match load f with
      | inl e => Some e
      | inr _ => first_failure files'
      end
  end.

(** The store after the documents were assigned one by one, each under
    the lower-cased stem of its file; it stops at a document that fails. *)
Fixpoint loaded_standards (files : list json_file) (d : PyDict.t json)
  : PyDict.t json :=
  match files with
  | [] => d
  | f :: files' =>
      match load f with
      | inl _ => d
      | inr data =>
          loaded_standards files' (PyDict.set d (lower (stem f)) data)
      end
  end.

End WithRuntime.

(** ** The runtime of the scenarios

    The scenarios below are run with a C library whose [pow] rounds a
    square correctly and leaves [errno] alone, and with the case mappings
    of ASCII text.  Their strings are ASCII, and the squares they take are
    numbers of binary64 or are out of its range. *)

Definition exact_pow (x y : float) : float * errno :=
  if (y =? 2)%float then ((x * x)%float, NoError) else (PrimFloat.nan, EDOM).

#[global] Instance scenario_runtime : Runtime := {|
  pow := exact_pow;
  lower := ascii_lower;
  upper := ascii_upper;
  lower_ascii := fun s _ => eq_refl;
  upper_ascii := fun s _ => eq_refl
|}.

(** A C library whose [pow] is one unit in the last place below the
    rounded square at 109.05749523088141, as observed with CPython 3.11 on
    glibc, and the runtime with this library. *)
Definition observed_pow (x y : float) : float * errno :=
  if (x =? 109.05749523088141)%float && (y =? 2)%float
  then (11893.537266033722%float, NoError)
  else exact_pow x y.

Definition observed_runtime : Runtime := {|
  pow := observed_pow;
  lower := ascii_lower;
  upper := ascii_upper;
  lower_ascii := fun s _ => eq_refl;
  upper_ascii := fun s _ => eq_refl
|}.

(** ** Scenarios of the design document *)

Local Open Scope float_scope.

Definition hardhat_entry : json :=
  JObject [("condition", JString "hardhat_missing");
           ("description", JString "Head protection required");
           ("severity", JString "high")].

Definition osha_document : json := JObject [("1926.100", hardhat_entry)].

Definition osha_engine : ViolationEngine := mkEngine [("osha", osha_document)].

Definition hardhat_detection : Detection :=
  mkDetection "hardhat_missing" "hardhat_missing" 0.91 (10, 10, 50, 80).

Definition hardhat_violation : Violation :=
  mkViolation "OSHA" "1926.100" (JString "Head protection required")
              (JString "high") 0.91
              (SingleBox (10, 10, 50, 80) "hardhat_missing").

Definition proximity_entry : json :=
  JObject [("condition", JString "forklift_pedestrian_proximity");
           ("description", JString "Pedestrian close to a powered truck");
           ("severity", JString "high")].

Definition proximity_engine : ViolationEngine :=
  mkEngine [("osha", JObject [("1910.178", proximity_entry)])].

Definition proximity_match : rule_match :=
  mkMatch "OSHA" "1910.178" (JString "Pedestrian close to a powered truck")
          (JString "high").

(** A store with two standards, in which the hard-hat condition has an
    entry in each. *)
Definition site_entry : json :=
  JObject [("condition", JString "hardhat_missing");
           ("description", JString "Hard hats beyond the gate")].

Definition site_engine : ViolationEngine :=
  mkEngine [("osha", JObject [("1926.100", hardhat_entry);
                              ("1910.178", proximity_entry)]);
            ("site", JObject [("S-7", site_entry)])].

Definition hardhat_match : rule_match :=
  mkMatch "OSHA" "1926.100" (JString "Head protection required")
          (JString "high").

Definition site_match : rule_match :=
  mkMatch "SITE" "S-7" (JString "Hard hats beyond the gate") (JString "").

(** A person whose box is centred at (100, 100), and forklifts whose boxes
    are centred at (150, 100), (250, 100), (300, 100) and (350, 100): at
    distance 50, 150, 200 and 250 of the person. *)
Definition person_100 : Detection :=
  mkDetection "person" "person" 0.8 (80, 60, 120, 140).

Definition forklift_150 : Detection :=
  mkDetection "forklift" "forklift" 0.6 (120, 70, 180, 130).

Definition forklift_250 : Detection :=
  mkDetection "forklift" "forklift" 0.6 (220, 70, 280, 130).

Definition forklift_300 : Detection :=
  mkDetection "forklift" "forklift" 0.6 (270, 70, 330, 130).

Definition forklift_350 : Detection :=
  mkDetection "forklift" "forklift" 0.6 (320, 70, 380, 130).

(** A forklift whose centre is about 200 away from the origin. *)
Definition forklift_near_200 : Detection :=
  mkDetection "forklift" "forklift" 0.6
              (167.6498217534581, 109.05749523088141,
               167.6498217534581, 109.05749523088141).

(** A person at the origin and a forklift so far to the right that the
    square of the horizontal offset is out of the range of binary64. *)
Definition person_origin : Detection :=
  mkDetection "person" "person" 0.8 (0, 0, 0, 0).

Definition forklift_1e200 : Detection :=
  mkDetection "forklift" "forklift" 0.6 (1e200, 0, 1e200, 0).

(** A document that parses, and whose entry is a string instead of an
    object. *)
Definition flat_document : json :=
  JObject [("1926.100", JString "Head protection required")].

Definition flat_directory : directory :=
  Listing [mkFile "osha" (inr flat_document)].

Definition flat_engine : ViolationEngine := mkEngine [("osha", flat_document)].

(** A directory with one good document, and one with a document that
    [json.load] rejects after a good one. *)
Definition standards_directory : directory :=
  Listing [mkFile "OSHA" (inr osha_document)].

Definition broken_directory : directory :=
  Listing [mkFile "osha" (inr osha_document);
           mkFile "ansi" (inl JSONDecodeError)].

(** An entry without a condition, next to a complete one, and an entry
    that has a condition and nothing else. *)
Definition bare_entry : json :=
  JObject [("description", JString "General duty")].

Definition sparse_entry : json :=
  JObject [("condition", JString "spill")].

Definition sparse_engine : ViolationEngine :=
  mkEngine [("osha", JObject [("5(a)(1)", bare_entry);
                              ("1910.22", sparse_entry)])].

(** * The rest of the repository: labels, detection wrapper, report

    [hazard_conditions.py], the parts of [detect.py] that are plain Python
    and [utils.py].  The YOLO model, OpenCV and the file system are outside
    the repository: a loaded model, the pixels of an image, [cv2.resize],
    [model.predict], [Path.resolve], [os.path.exists] and the [YOLO]
    constructor are parameters. *)

(** ** Numbers and strings of the Python runtime *)

Module Py.

Inductive error : Type :=
| FileNotFoundError
| ZeroDivisionError
| ValueError         (* [int] of a NaN *)
| OverflowError      (* [int] of an infinity, an int too large for a float *)
| KeyError
| LibraryError (what : string).  (* raised inside YOLO or OpenCV *)

Definition outcome (A : Type) : Type := (error + A)%type.

Definition and_then {A B} (r : outcome A) (k : A -> outcome B) : outcome B :=
  match r with
  | inl e => inl e
  | inr a => k a
  end.

(** [str(n)] of an int. *)
Definition str_of_int (z : Z) : string := NilZero.string_of_int (Z.to_int z).

(** The conversion of an int to a float, rounded to nearest even. *)
Definition float_of_int (z : Z) : outcome float :=
  let f := SF2Prim (binary_normalize prec emax z 0 false) in
  if PrimFloat.is_infinity f then inl OverflowError else inr f.

(** [a / b] of two ints: the quotient rounded once, to nearest even. *)
Definition truediv (a b : Z) : outcome float :=
  if (b =? 0)%Z then inl ZeroDivisionError
  else
    let negate := xorb (a <? 0)%Z (b <? 0)%Z in
    if (a =? 0)%Z then inr (if negate then (-0)%float else 0%float)
    else
      let q := SF2Prim (SFdiv prec emax
                          (S754_finite (a <? 0)%Z (Z.to_pos (Z.abs a)) 0)
                          (S754_finite (b <? 0)%Z (Z.to_pos (Z.abs b)) 0)) in
      if PrimFloat.is_infinity q then inl OverflowError else inr q.

(** [int(f)] of a float: truncation towards zero. *)
Definition int_of_float (f : float) : outcome Z :=
  match Prim2SF f with
  | S754_nan => inl ValueError
  | S754_infinity _ => inl OverflowError
  | S754_zero _ => inr 0%Z
  | S754_finite s m e =>
      let magnitude :=
        match e with
        | Zneg k => Z.shiftr (Zpos m) (Zpos k)
        | _ => Z.shiftl (Zpos m) e
        end in
      inr (if s then Z.opp magnitude else magnitude)
  end.

Definition two_digits (n : Z) : string :=
  (if (n <? 10)%Z then "0" else "") ++ str_of_int n.

(** [f"{x:.2f}"]: two decimals of the exact value, ties to even. *)
Definition format_2f (f : float) : string :=
  match Prim2SF f with
  | S754_nan => "nan"
  | S754_infinity s => if s then "-inf" else "inf"
  | S754_zero s => if s then "-0.00" else "0.00"
  | S754_finite s m e =>
      let hundredths :=
        match e with
        | Zneg k =>
            let num := (Zpos m * 100)%Z in
            let den := Z.shiftl 1 (Zpos k) in
            let q := (num / den)%Z in
            let r := (num mod den)%Z in
            if (den <? 2 * r)%Z then (q + 1)%Z
            else if (den =? 2 * r)%Z then (if Z.odd q then q + 1 else q)%Z
            else q
        | _ => (Z.shiftl (Zpos m) e * 100)%Z
        end in
      (if s then "-" else "") ++ str_of_int (hundredths / 100) ++ "."
      ++ two_digits (hundredths mod 100)
  end.

(** [sep.join(parts)] *)
Fixpoint join (sep : string) (parts : list string) : string :=
  match parts with
  | [] => ""
  | [part] => part
  | part :: parts' => part ++ sep ++ join sep parts'
  end.

End Py.

(** ** hazard_conditions.py *)

Definition CLASS_NAMES : list string :=
  ["person"; "forklift"; "hardhat_missing"; "hi_vis_missing";
   "safety_glasses_missing"; "ungaurded_machine"; "blocked_exit";
   "ladder_unsafe"; "spill"; "no_guardrail"].

Definition CLASS_CONDITIONS : PyDict.t string :=
  [("hardhat_missing", "hardhat_missing");
   ("hi_vis_missing", "hi_vis_missing");
   ("safety_glasses_missing", "safety_glasses_missing");
   ("ungaurded_machine", "unguarded_machine");
   ("blocked_exit", "blocked_exit");
   ("ladder_unsafe", "ladder_unsafe");
   ("spill", "spill");
   ("no_guardrail", "no_guardrail");
   ("person", "person");
   ("forklift", "forklift")].

(** [d.get(key, default)] *)
Definition get_or {V} (d : PyDict.t V) (key : string) (default : V) : V :=
  match PyDict.get d key with
  | Some v => v
  | None => default
  end.

(** ** detect.py *)

Module Detect.

(** What the wrapper reads of a box and of a result of [model.predict]:
    [box.cls.item()], [box.conf.item()], [box.xyxy[0].tolist()],
    [result.boxes] and, when the attribute exists, [result.names]. *)
Record box : Type := mkBox {
  cls : float;
  conf : float;
  xyxy : bbox_t
}.

Record yolo_result : Type := mkResult {
  boxes : list box;
  names : option (list (Z * string))
}.

(** [names.get(cls_id)] on a dictionary with int keys. *)
Fixpoint names_get (d : list (Z * string)) (key : Z) : option string :=
  match d with
  | [] => None
  | (k, v) :: d' => if (k =? key)%Z then Some v else names_get d' key
  end.

(** A loop of a function that may raise, with a local accumulator. *)
Fixpoint for_each {A S} (xs : list A) (body : A -> S -> Py.outcome S)
         (acc : S) : Py.outcome S :=
  match xs with
  | [] => inr acc
  | x :: xs' => Py.and_then (body x acc) (for_each xs' body)
  end.

Section Externals.

Variable Model : Type.
Variable Pixels : Type.

(** An image: [image.shape[:2]] and its content. *)
Record image : Type := mkImage {
  shape : Z * Z;
  pixels : Pixels
}.

(** What a call of [load_model] sees of the file system. *)
Record filesystem : Type := mkFilesystem {
  resolve : string -> Py.outcome string;
  path_exists : string -> bool;
  YOLO : string -> Py.outcome Model
}.

(** [load_model]: the module-level [_model_cache] is passed in and
    returned. *)
Definition load_model (fs : filesystem) (weights_path : string)
           (_model_cache : PyDict.t Model)
  : PyDict.t Model * Py.outcome Model :=
  match resolve fs weights_path with
  | inl e => (_model_cache, inl e)
  | inr weights_path =>
      let after_miss :=
        match PyDict.get _model_cache weights_path with
        | Some _ => (_model_cache, inr tt)
        | None =>
            if negb (path_exists fs weights_path)
            then (_model_cache, inl Py.FileNotFoundError)
            else match YOLO fs weights_path with
                 | inl e => (_model_cache, inl e)
                 | inr model =>
                     (PyDict.set _model_cache weights_path model, inr tt)
                 end
        end in
      match after_miss with
      | (cache, inl e) => (cache, inl e)
      | (cache, inr _) =>
          (cache, match PyDict.get cache weights_path with
                  | Some model => inr model
                  | None => inl Py.KeyError
                  end)
      end
  end.

Variable cv2_resize : image -> Z * Z -> Py.outcome image.
Variable predict : Model -> image -> Py.outcome (list yolo_result).

Definition prepare_image (img : image) (max_size : Z) : Py.outcome image :=
  let '(h, w) := shape img in
  Py.and_then (Py.truediv max_size (Z.max h w)) (fun ratio =>
  let scale := py_min ratio 1 in
  Py.and_then (Py.float_of_int w) (fun wf =>
  Py.and_then (Py.int_of_float (wf * scale)) (fun new_w =>
  Py.and_then (Py.float_of_int h) (fun hf =>
  Py.and_then (Py.int_of_float (hf * scale)) (fun new_h =>
  cv2_resize img (new_w, new_h)))))).

(** The body of the loop over the boxes of a result. *)
Definition box_step (img prepared : image) (conf_threshold : float)
           (result : yolo_result) (box : box) (detections : list Detection)
  : Py.outcome (list Detection) :=
  Py.and_then (Py.int_of_float (cls box)) (fun cls_id =>
  let score := conf box in
  if score <? conf_threshold then inr detections
  else
    let '(class_name, condition) :=
      if (0 <=? cls_id)%Z && (cls_id <? Z.of_nat (length CLASS_NAMES))%Z
      then
        let class_name := nth (Z.to_nat cls_id) CLASS_NAMES "" in
        (class_name, get_or CLASS_CONDITIONS class_name class_name)
      else
        let class_name :=
          match names result with
          | Some d =>
              match names_get d cls_id with
              | Some name => name
              | None => Py.str_of_int cls_id
              end
          | None => Py.str_of_int cls_id
          end in
        (class_name, class_name) in
    let '(x1, y1, x2, y2) := xyxy box in
    Py.and_then (Py.truediv (fst (shape img)) (fst (shape prepared)))
      (fun h_ratio =>
    Py.and_then (Py.truediv (snd (shape img)) (snd (shape prepared)))
      (fun w_ratio =>
    let orig_x1 := x1 * w_ratio in
    let orig_y1 := y1 * h_ratio in
    let orig_x2 := x2 * w_ratio in
    let orig_y2 := y2 * h_ratio in
    inr (detections ++
         [mkDetection class_name condition score
                      (orig_x1, orig_y1, orig_x2, orig_y2)])))).

(** The argument of [detect_image]: a YOLO model or a sequence. *)
Inductive models : Type :=
| One (model : Model)
| Several (sequence : list models).

(** The loop over the models of a sequence, given the function for one. *)
Fixpoint extend_all (detect : models -> Py.outcome (list Detection))
         (sequence : list models) (all_detections : list Detection)
  : Py.outcome (list Detection) :=
  match sequence with
  | [] => inr all_detections
  | m :: rest =>
      Py.and_then (detect m) (fun found =>
      extend_all detect rest (all_detections ++ found))
  end.

Fixpoint detect_image (model : models) (img : image) (conf_threshold : float)
  : Py.outcome (list Detection) :=
  match model with
  | Several sequence =>
      (fix loop (ms : list models) (all_detections : list Detection)
       : Py.outcome (list Detection) :=
         match ms with
         | [] => inr all_detections
         | m :: ms' =>
             Py.and_then (detect_image m img conf_threshold) (fun found =>
             loop ms' (all_detections ++ found))
         end) sequence []
  | One model =>
      Py.and_then (prepare_image img 1024) (fun prepared =>
      Py.and_then (predict model prepared) (fun results =>
      for_each results
        (fun result detections =>
           for_each (boxes result)
                    (box_step img prepared conf_threshold result)
                    detections)
        []))
  end.

End Externals.

End Detect.

Arguments Detect.mkImage {Pixels} shape pixels.
Arguments Detect.shape {Pixels} i.
Arguments Detect.mkFilesystem {Model} resolve path_exists YOLO.
Arguments Detect.resolve {Model} f _.
Arguments Detect.path_exists {Model} f _.
Arguments Detect.YOLO {Model} f _.
Arguments Detect.load_model {Model} fs weights_path _model_cache.
Arguments Detect.prepare_image {Pixels} cv2_resize img max_size.
Arguments Detect.box_step {Pixels} img prepared conf_threshold result box
  detections.
Arguments Detect.One {Model} model.
Arguments Detect.Several {Model} sequence.
Arguments Detect.extend_all {Model} detect sequence all_detections.
Arguments Detect.detect_image {Model Pixels} cv2_resize predict model img
  conf_threshold.

(** ** utils.py *)

Section Report.

(** [str] of the values that are neither a string, [None], a bool nor an
    int: a float, a list, a dict. *)
Variable repr : json -> string.

(** [f"{value}"] *)
Definition str_of_json (v : json) : string :=
  match v with
  | JString s => s
  | JNull => "None"
  | JBool true => "True"
  | JBool false => "False"
  | JInt z => Py.str_of_int z
  | _ => repr v
  end.

Definition newline : string := String (ascii_of_nat 10) EmptyString.

Definition summarise_violations (violations : list Violation) : string :=
  if negb (truthy violations) then "No potential violations detected."
  else
    let lines :=
      fold_left
        (fun lines v =>
           lines ++
           [(v_standard v ++ " " ++ v_citation v ++ ": "
             ++ str_of_json (v_description v) ++ " (confidence "
             ++ Py.format_2f (v_confidence v) ++ ")")%string])
        violations [] in
    Py.join newline lines.

End Report.

(** The line of the report for one violation. *)
Definition report_line (repr : json -> string) (v : Violation) : string :=
  v_standard v ++ " " ++ v_citation v ++ ": "
  ++ str_of_json repr (v_description v) ++ " (confidence "
  ++ Py.format_2f (v_confidence v) ++ ")".

Fixpoint last_char (s : string) : option ascii :=
  match s with
  | EmptyString => None
  | String c EmptyString => Some c
  | String _ s' => last_char s'
  end.

(** Some coordinate of the box is a NaN. *)
Definition has_nan (b : bbox_t) : bool :=
  let '(x1, y1, x2, y2) := b in
  PrimFloat.is_nan x1 || PrimFloat.is_nan y1
  || PrimFloat.is_nan x2 || PrimFloat.is_nan y2.

Definition nan_forklift : Detection :=
  mkDetection "forklift" "forklift" 0.6 (120, nan, 180, 130).

(** A detection carries its class name as condition, except for the one
    label that the table of conditions respells. *)
Definition condition_follows_label (d : Detection) : Prop :=
  condition d = class_name d \/
  (class_name d = "ungaurded_machine" /\ condition d = "unguarded_machine").

(** The boxes that the threshold lets through. *)
Definition passes (conf_threshold : float) (b : Detect.box) : bool :=
  negb (Detect.conf b <? conf_threshold)%float.

(** The scale that [prepare_image] applies to an image whose longer side
    is [longer], and the length that a scale gives to a side. *)
Definition scale_of (max_size longer : Z) : Py.outcome float :=
  Py.and_then (Py.truediv max_size longer) (fun ratio =>
  inr (py_min ratio 1)).

Definition scaled_side (scale : float) (side : Z) : Py.outcome Z :=
  Py.and_then (Py.float_of_int side) (fun f =>
  Py.int_of_float (f * scale)).

(** The lengths [first], [first + 1], ... ([count] of them). *)
Definition lengths (first count : nat) : list Z :=
  map Z.of_nat (seq first count).

Definition keeps_size (side : Z) : bool :=
  match scale_of 1024 side, scaled_side 1 side with
  | inr scale, inr n => PrimFloat.Leibniz.eqb scale 1 && (n =? side)%Z
  | _, _ => false
  end.

Definition shrinks_to_limit (side : Z) : bool :=
  match scale_of 1024 side with
  | inr scale =>
      match scaled_side scale side with
      | inr n => (n =? 1023)%Z || (n =? 1024)%Z
      | inl _ => false
      end
  | inl _ => false
  end.

(** ** Stand-ins for the scenarios of the wrapper

    A model that predicts a fixed list of results whatever the image, an
    image without content, and a resize that only changes the shape. *)

Definition fixed_model : Type := list Detect.yolo_result.

Definition fixed_predict (model : fixed_model) (_ : Detect.image unit)
  : Py.outcome (list Detect.yolo_result) :=
  inr model.

Definition shape_resize (img : Detect.image unit) (dsize : Z * Z)
  : Py.outcome (Detect.image unit) :=
  let '(new_w, new_h) := dsize in
  if (0 <? new_w)%Z && (0 <? new_h)%Z
  then inr (Detect.mkImage (new_h, new_w) tt)
  else inl (Py.LibraryError "cv2.error").

Definition frame_1122 : Detect.image unit :=
  Detect.mkImage (1122, 800)%Z tt.

Definition frame_720p : Detect.image unit :=
  Detect.mkImage (720, 1280)%Z tt.

(** A person at score 0.9, a hard hat missing at score 0.2, an unguarded
    machine at score 0.5 and a class the table does not know. *)
Definition site_model : fixed_model :=
  [Detect.mkResult
     [Detect.mkBox 0 0.9 (100, 100, 200, 300);
      Detect.mkBox 2 0.2 (120, 100, 160, 140);
      Detect.mkBox 5 0.5 (400, 300, 600, 500);
      Detect.mkBox 17 0.7 (10, 10, 20, 20)]
     (Some [(17, "crane")%Z])].

Definition forklift_model : fixed_model :=
  [Detect.mkResult [Detect.mkBox 1 0.8 (150, 100, 250, 300)] None].

(** A model of another vocabulary, whose class 10 has the misspelt name
    of the table. *)
Definition foreign_model : fixed_model :=
  [Detect.mkResult [Detect.mkBox 10 0.5 (400, 300, 600, 500)]
                   (Some [(10, "ungaurded_machine")%Z])].

(** What the wrapper returns for [site_model] on [frame_720p]: the frame
    is prepared at 576 by 1024, so both ratios are 1.25. *)
Definition site_detections : list Detection :=
  [mkDetection "person" "person" 0.9 (125, 125, 250, 375);
   mkDetection "ungaurded_machine" "unguarded_machine" 0.5
               (500, 375, 750, 625);
   mkDetection "crane" "crane" 0.7 (12.5, 12.5, 25, 25)].

Definition disk : Detect.filesystem fixed_model :=
  Detect.mkFilesystem
    (fun path => inr ("/srv/" ++ path)%string)
    (fun path => String.eqb path "/srv/models/site.pt")
    (fun _ => inr site_model).

Definition empty_disk : Detect.filesystem fixed_model :=
  Detect.mkFilesystem
    (fun path => inr ("/srv/" ++ path)%string)
    (fun _ => false)
    (fun _ => inl (Py.LibraryError "unreadable weights")).

(** * Properties *)

Local Close Scope float_scope.

(** ** The monad *)

Lemma bind_ok {A B} (m : M A) (k : A -> M B) self self' a :
  m self = (self', inr a) -> bind m k self = k a self'.
Proof. intros H. unfold bind. now rewrite H. Qed.

Lemma bind_err {A B} (m : M A) (k : A -> M B) self self' e :
  m self = (self', inl e) -> bind m k self = (self', inl e).
Proof. intros H. unfold bind. now rewrite H. Qed.

(** A loop whose body appends [f x] to the accumulator and leaves the
    engine alone appends [flat_map f xs] in all. *)
Lemma for_each_append {A B} (f : A -> list B) (body : A -> list B -> M (list B))
      (self : ViolationEngine) (xs : list A) :
  (forall x acc, In x xs -> body x acc self = (self, inr (acc ++ f x))) ->
  forall acc, for_each xs body acc self = (self, inr (acc ++ flat_map f xs)).
Proof.
  induction xs as [|x xs IH]; intros Hbody acc; simpl.
  - now rewrite app_nil_r.
  - rewrite (bind_ok _ _ _ _ _ (Hbody x acc (or_introl eq_refl))).
    rewrite IH by (intros; apply Hbody; now right).
    now rewrite app_assoc.
Qed.

(** A loop whose body raises [e] at some element, and returns normally
    without touching the engine before it, raises [e]. *)
Lemma for_each_raises {A S} (ok : A -> bool) (body : A -> S -> M S)
      (self : ViolationEngine) (e : exn) (xs : list A) :
  (forall x acc, ok x = true -> exists acc', body x acc self = (self, inr acc')) ->
  (forall x acc, ok x = false -> body x acc self = (self, inl e)) ->
  forallb ok xs = false ->
  forall acc, for_each xs body acc self = (self, inl e).
Proof.
  intros Hok Herr. induction xs as [|x xs IH]; simpl; intros Hall acc.
  - discriminate.
  - destruct (ok x) eqn:Hx.
    + destruct (Hok x acc Hx) as [acc' Hb].
      rewrite (bind_ok _ _ _ _ _ Hb). now apply IH.
    + now rewrite (bind_err _ _ _ _ _ (Herr x acc Hx)).
Qed.

Lemma for_each_first_error {A S} (err : A -> option exn)
      (body : A -> S -> M S) (self : ViolationEngine) (xs : list A) :
  (forall x acc, err x = None ->
                 exists acc', body x acc self = (self, inr acc')) ->
  (forall x acc e, err x = Some e -> body x acc self = (self, inl e)) ->
  forall e, first_error err xs = Some e ->
  forall acc, for_each xs body acc self = (self, inl e).
Proof.
  intros Hok Herr e. induction xs as [|x xs IH]; simpl; intros Hfirst acc.
  - discriminate.
  - destruct (err x) as [e'|] eqn:Hx.
    + injection Hfirst as ->.
      now rewrite (bind_err _ _ _ _ _ (Herr x acc e Hx)).
    + destruct (Hok x acc Hx) as [acc' Hb].
      rewrite (bind_ok _ _ _ _ _ Hb). now apply IH.
Qed.

Lemma first_error_none {A} (err : A -> option exn) (xs : list A) :
  first_error err xs = None <-> forall x, In x xs -> err x = None.
Proof.
  induction xs as [|x xs IH]; simpl.
  - split; [intros _ x []|reflexivity].
  - destruct (err x) eqn:Hx.
    + split; [discriminate|]. intros H.
      specialize (H x (or_introl eq_refl)). congruence.
    + rewrite IH. split.
      * intros H y [<-|Hy]; auto.
      * intros H y Hy. auto.
Qed.

Lemma first_error_some {A} (err : A -> option exn) (xs : list A) e :
  first_error err xs = Some e -> exists x, In x xs /\ err x = Some e.
Proof.
  induction xs as [|x xs IH]; simpl; [discriminate|].
  destruct (err x) eqn:Hx.
  - intros [= ->]. exists x. auto.
  - intros H. destruct (IH H) as (y & Hy & Hey). exists y. auto.
Qed.

(** ** Lookup against its description *)

Lemma lookup_entry_step {rt : Runtime} c std_name self p matches :
  is_object (snd p) = true ->
  (let '(citation, entry) := p in
   fun matches =>
     c0 <- get entry "condition" JNull ;;
     if eq_str c0 c then
       description <- get entry "description" (JString "") ;;
       severity <- get entry "severity" (JString "") ;;
       ret (matches ++ [mkMatch (upper std_name) citation description severity])
     else ret matches) matches self
  = (self, inr (matches ++ lookup_entry c std_name p)).
Proof.
  destruct p as [citation entry]; simpl. intros Hobj.
  destruct entry; try discriminate.
  unfold lookup_entry, applies_to, field, rule_entry; simpl.
  unfold bind, get, ret; simpl.
  destruct (eq_str _ c); [reflexivity | now rewrite app_nil_r].
Qed.

Lemma lookup_doc_step {rt : Runtime} c self p matches :
  doc_ok (snd p) = true ->
  (let '(std_name, mapping) := p in
   fun matches =>
     its <- items mapping ;;
     for_each its
       (fun '(citation, entry) matches =>
          c0 <- get entry "condition" JNull ;;
          if eq_str c0 c then
            description <- get entry "description" (JString "") ;;
            severity <- get entry "severity" (JString "") ;;
            ret (matches ++ [mkMatch (upper std_name) citation
                                     description severity])
          else ret matches)
       matches) matches self
  = (self, inr (matches ++ lookup_doc c p)).
Proof.
  destruct p as [std_name mapping]; simpl. unfold doc_ok.
  intros H. apply andb_prop in H. destruct H as [Hobj Hall].
  destruct mapping; try discriminate. simpl in Hall.
  unfold lookup_doc; simpl.
  unfold bind at 1; simpl.
  apply for_each_append. intros x acc Hx.
  apply (lookup_entry_step c std_name self x acc).
  rewrite forallb_forall in Hall. now apply Hall.
Qed.

Lemma lookup_doc_raises {rt : Runtime} c self p matches :
  doc_ok (snd p) = false ->
  (let '(std_name, mapping) := p in
   fun matches =>
     its <- items mapping ;;
     for_each its
       (fun '(citation, entry) matches =>
          c0 <- get entry "condition" JNull ;;
          if eq_str c0 c then
            description <- get entry "description" (JString "") ;;
            severity <- get entry "severity" (JString "") ;;
            ret (matches ++ [mkMatch (upper std_name) citation
                                     description severity])
          else ret matches)
       matches) matches self
  = (self, inl AttributeError).
Proof.
  destruct p as [std_name mapping]; simpl. unfold doc_ok.
  destruct mapping; simpl; try reflexivity.
  intros Hall. unfold bind at 1; simpl.
  apply (for_each_raises (fun p => is_object (snd p))); trivial.
  - intros x acc Hx. eexists.
    apply (lookup_entry_step c std_name self x acc Hx).
  - intros [citation entry] acc; simpl. now destruct entry.
Qed.

Lemma _lookup_condition_ok {rt : Runtime} c self :
  store_ok (standards self) = true ->
  _lookup_condition c self = (self, inr (lookup (standards self) c)).
Proof.
  intros Hok. unfold _lookup_condition, bind at 1, get_standards.
  unfold lookup. change (flat_map (lookup_doc c) (standards self))
    with ([] ++ flat_map (lookup_doc c) (standards self)).
  apply for_each_append. intros x acc Hx.
  apply lookup_doc_step.
  unfold store_ok in Hok. rewrite forallb_forall in Hok. now apply Hok.
Qed.

Lemma _lookup_condition_raises {rt : Runtime} c self :
  store_ok (standards self) = false ->
  _lookup_condition c self = (self, inl AttributeError).
Proof.
  intros Hbad. unfold _lookup_condition, bind at 1, get_standards.
  apply (for_each_raises (fun p => doc_ok (snd p))); trivial.
  - intros x acc Hx. eexists. now apply lookup_doc_step.
  - intros x acc Hx. now apply lookup_doc_raises.
Qed.

(** ** Evaluation against its description *)

Lemma flat_map_singleton {A B} (f : A -> B) (l : list A) :
  flat_map (fun x => [f x]) l = map f l.
Proof. induction l; simpl; congruence. Qed.

Lemma flat_map_empty {A B C} (g : A -> B -> list C) (l : list A) :
  flat_map (fun x => flat_map (g x) []) l = [].
Proof. now induction l. Qed.

Lemma emit_loop {A} (f : A -> Violation) (xs : list A) self violations :
  for_each xs (fun x violations => ret (violations ++ [f x])) violations self
  = (self, inr (violations ++ map f xs)).
Proof.
  rewrite <- flat_map_singleton.
  now apply for_each_append.
Qed.

Lemma direct_step {rt : Runtime} self det violations :
  store_ok (standards self) = true ->
  (matches <- _lookup_condition (condition det) ;;
   for_each matches
     (fun m violations =>
        ret (violations ++
             [with_match m (confidence det)
                (SingleBox (bbox det) (class_name det))]))
     violations) self
  = (self, inr (violations ++
                map (direct_violation det)
                    (lookup (standards self) (condition det)))).
Proof.
  intros Hok.
  rewrite (bind_ok _ _ _ _ _ (_lookup_condition_ok _ _ Hok)).
  apply (emit_loop (direct_violation det)).
Qed.

Lemma pair_step {rt : Runtime} self person forklift violations :
  store_ok (standards self) = true ->
  measurable person forklift = true ->
  (distance <- lift (_euclidean_distance (_bbox_center (bbox person))
                                         (_bbox_center (bbox forklift))) ;;
   if (distance <? threshold)%float
   then
     matches <- _lookup_condition proximity_condition ;;
     for_each matches
       (fun m violations =>
          let c := py_min (confidence person) (confidence forklift) in
          ret (violations ++
               [with_match m c (TwoBoxes (bbox person) (bbox forklift))]))
       violations
   else ret violations) self
  = (self, inr (violations ++ pair_violations (standards self) person forklift)).
Proof.
  intros Hok. unfold pair_violations, close, measurable, center_distance.
  unfold bind at 1, lift.
  destruct (_euclidean_distance _ _) as [e | distance]; [discriminate|].
  intros _. destruct (distance <? threshold)%float.
  - rewrite (bind_ok _ _ _ _ _ (_lookup_condition_ok _ _ Hok)).
    apply (emit_loop (compound_violation person forklift)).
  - unfold ret. now rewrite app_nil_r.
Qed.

Lemma pair_step_raises {rt : Runtime} self person forklift violations e :
  distance_error person forklift = Some e ->
  (distance <- lift (_euclidean_distance (_bbox_center (bbox person))
                                         (_bbox_center (bbox forklift))) ;;
   if (distance <? threshold)%float
   then
     matches <- _lookup_condition proximity_condition ;;
     for_each matches
       (fun m violations =>
          let c := py_min (confidence person) (confidence forklift) in
          ret (violations ++
               [with_match m c (TwoBoxes (bbox person) (bbox forklift))]))
       violations
   else ret violations) self
  = (self, inl e).
Proof.
  unfold distance_error, center_distance, bind at 1, lift.
  destruct (_euclidean_distance _ _) as [e' | distance] eqn:Hd;
    [|discriminate].
  now intros [= ->].
Qed.

Lemma distance_error_measurable {rt : Runtime} person forklift :
  distance_error person forklift = None <-> measurable person forklift = true.
Proof.
  unfold distance_error, measurable.
  destruct (center_distance person forklift); split; congruence.
Qed.

Lemma pair_error_pairs_ok {rt : Runtime} dets :
  pair_error dets = None <-> pairs_ok dets = true.
Proof.
  unfold pair_error, pairs_ok. rewrite first_error_none, forallb_forall.
  split; intros H person Hperson; specialize (H person Hperson).
  - rewrite forallb_forall. intros forklift Hforklift.
    apply distance_error_measurable.
    rewrite first_error_none in H. auto.
  - rewrite first_error_none. intros forklift Hforklift.
    apply distance_error_measurable.
    rewrite forallb_forall in H. auto.
Qed.

(** The squares raise nothing but [OverflowError] and [ValueError]. *)
Lemma pow2_raises {rt : Runtime} v e :
  pow2 v = inl e -> e = OverflowError \/ e = ValueError.
Proof.
  unfold pow2.
  repeat match goal with
         | |- context [if ?b then _ else _] => destruct b
         end; try discriminate;
    destruct (pow _ 2%float) as [ix err];
    destruct (_Py_ADJUST_ERANGE1 ix err); intros [= <-]; auto.
Qed.

Lemma pair_error_kind {rt : Runtime} dets e :
  pair_error dets = Some e -> e = OverflowError \/ e = ValueError.
Proof.
  unfold pair_error. intros H.
  apply first_error_some in H. destruct H as (person & _ & H).
  apply first_error_some in H. destruct H as (forklift & _ & H).
  unfold distance_error, center_distance, _euclidean_distance, and_then in H.
  destruct (pow2 (fst _ - fst _)) as [e1|dx2] eqn:Hx.
  - injection H as <-. now apply pow2_raises in Hx.
  - destruct (pow2 (snd _ - snd _)) as [e2|dy2] eqn:Hy; [|discriminate].
    injection H as <-. now apply pow2_raises in Hy.
Qed.

Lemma direct_loop {rt : Runtime} self detections :
  store_ok (standards self) = true ->
  for_each detections
    (fun det violations =>
       matches <- _lookup_condition (condition det) ;;
       for_each matches
         (fun m violations =>
            ret (violations ++
                 [with_match m (confidence det)
                    (SingleBox (bbox det) (class_name det))]))
         violations) [] self
  = (self, inr (direct_violations (standards self) detections)).
Proof.
  intros Hok.
  change (direct_violations (standards self) detections)
    with ([] ++ direct_violations (standards self) detections).
  apply for_each_append. intros det acc _. now apply direct_step.
Qed.

Lemma evaluate_ok {rt : Runtime} self detections :
  store_ok (standards self) = true ->
  pairs_ok detections = true ->
  evaluate detections self
  = (self, inr (direct_violations (standards self) detections ++
                compound_violations (standards self) detections)).
Proof.
  intros Hok Hpairs. unfold evaluate.
  rewrite (bind_ok _ _ _ _ _ (direct_loop _ _ Hok)).
  unfold compound_violations. unfold pairs_ok in Hpairs.
  destruct (filter (has_condition "person") detections) as [|p ps] eqn:Hp;
    [ simpl; unfold ret; now rewrite app_nil_r | ].
  destruct (filter (has_condition "forklift") detections) as [|f fs] eqn:Hf.
  - simpl truthy. simpl andb. cbv iota. unfold ret.
    rewrite flat_map_empty. now rewrite app_nil_r.
  - simpl truthy. simpl andb. cbv iota.
    rewrite forallb_forall in Hpairs.
    apply for_each_append. intros person acc Hperson.
    specialize (Hpairs person Hperson). rewrite forallb_forall in Hpairs.
    apply for_each_append. intros forklift acc' Hforklift.
    apply pair_step; auto.
Qed.

Lemma evaluate_nil {rt : Runtime} self : evaluate [] self = (self, inr []).
Proof. reflexivity. Qed.

Lemma evaluate_raises {rt : Runtime} self detections :
  store_ok (standards self) = false ->
  detections <> [] ->
  evaluate detections self = (self, inl AttributeError).
Proof.
  intros Hbad Hne. destruct detections as [|det dets]; [congruence|].
  unfold evaluate. apply bind_err. simpl for_each.
  apply bind_err. apply bind_err. now apply _lookup_condition_raises.
Qed.

Lemma evaluate_pair_raises {rt : Runtime} self detections e :
  store_ok (standards self) = true ->
  pair_error detections = Some e ->
  evaluate detections self = (self, inl e).
Proof.
  intros Hok Hpairs. unfold evaluate.
  rewrite (bind_ok _ _ _ _ _ (direct_loop _ _ Hok)).
  unfold pair_error in Hpairs.
  destruct (filter (has_condition "person") detections) as [|p ps] eqn:Hp;
    [discriminate|].
  destruct (filter (has_condition "forklift") detections) as [|f fs] eqn:Hf.
  - exfalso. clear - Hpairs. induction (p :: ps); simpl in *; congruence.
  - simpl truthy. simpl andb. cbv iota.
    apply (for_each_first_error
             (fun person => first_error (distance_error person) (f :: fs)));
      trivial.
    + intros person acc Hall. eexists.
      rewrite first_error_none in Hall.
      apply for_each_append. intros forklift acc' Hforklift.
      apply pair_step; auto. apply distance_error_measurable. auto.
    + intros person acc e' Hsome.
      apply (for_each_first_error (distance_error person)); trivial.
      * intros forklift acc' Hm. eexists. apply pair_step; auto.
        now apply distance_error_measurable.
      * intros forklift acc' e'' Hm. now apply pair_step_raises.
Qed.

Lemma evaluate_returns {rt : Runtime} self dets self' vs :
  evaluate dets self = (self', inr vs) ->
  self' = self /\
  vs = direct_violations (standards self) dets ++
       compound_violations (standards self) dets /\
  (dets <> [] -> store_ok (standards self) = true) /\
  pairs_ok dets = true.
Proof.
  destruct (store_ok (standards self)) eqn:Hok.
  - destruct (pairs_ok dets) eqn:Hpairs.
    + rewrite evaluate_ok by assumption. intros [= <- <-]. auto.
    + destruct (pair_error dets) as [e|] eqn:He.
      * rewrite (evaluate_pair_raises _ _ e) by assumption. discriminate.
      * apply pair_error_pairs_ok in He. congruence.
  - destruct dets as [|det dets].
    + rewrite evaluate_nil. intros [= <- <-]. repeat split. congruence.
    + rewrite evaluate_raises; [discriminate | assumption | discriminate].
Qed.

(** ** Where a violation comes from *)

Lemma has_condition_true c det :
  has_condition c det = true <-> condition det = c.
Proof. unfold has_condition. apply String.eqb_eq. Qed.

Lemma direct_origin {rt : Runtime} stds dets v :
  In v (direct_violations stds dets) <->
  exists det m,
    In det dets /\ In m (lookup stds (condition det)) /\
    v = direct_violation det m.
Proof.
  unfold direct_violations. rewrite in_flat_map. split.
  - intros (det & Hdet & Hv). apply in_map_iff in Hv.
    destruct Hv as (m & Hm & Hin). exists det, m. auto.
  - intros (det & m & Hdet & Hm & ->). exists det. split; trivial.
    now apply in_map.
Qed.

Lemma compound_origin {rt : Runtime} stds dets v :
  In v (compound_violations stds dets) <->
  exists person forklift m,
    In person dets /\ condition person = "person" /\
    In forklift dets /\ condition forklift = "forklift" /\
    close person forklift = true /\
    In m (lookup stds proximity_condition) /\
    v = compound_violation person forklift m.
Proof.
  unfold compound_violations. rewrite in_flat_map. split.
  - intros (person & Hp & Hv). apply in_flat_map in Hv.
    destruct Hv as (forklift & Hf & Hv).
    apply filter_In in Hp, Hf. destruct Hp as [Hp Hpc], Hf as [Hf Hfc].
    apply has_condition_true in Hpc, Hfc.
    unfold pair_violations in Hv.
    destruct (close person forklift) eqn:Hclose; [|contradiction].
    apply in_map_iff in Hv. destruct Hv as (m & Hm & Hin).
    exists person, forklift, m. auto 10.
  - intros (person & forklift & m & Hp & Hpc & Hf & Hfc & Hclose & Hm & ->).
    exists person. split.
    + apply filter_In. split; trivial. now apply has_condition_true.
    + apply in_flat_map. exists forklift. split.
      * apply filter_In. split; trivial. now apply has_condition_true.
      * unfold pair_violations. rewrite Hclose. now apply in_map.
Qed.

Lemma direct_is_not_compound det m person forklift m' :
  direct_violation det m <> compound_violation person forklift m'.
Proof. unfold direct_violation, compound_violation, with_match. congruence. Qed.

(** ** The proximity test *)

Lemma pairs_ok_measurable {rt : Runtime} dets person forklift :
  pairs_ok dets = true ->
  In person dets -> condition person = "person" ->
  In forklift dets -> condition forklift = "forklift" ->
  measurable person forklift = true.
Proof.
  unfold pairs_ok. intros Hpairs Hp Hpc Hf Hfc.
  rewrite forallb_forall in Hpairs.
  assert (Hfs := Hpairs person).
  rewrite forallb_forall in Hfs. apply Hfs.
  - apply filter_In. split; trivial. now apply has_condition_true.
  - apply filter_In. split; trivial. now apply has_condition_true.
Qed.

Lemma qualifying_pairs_In {rt : Runtime} dets person forklift :
  In (person, forklift) (qualifying_pairs dets) <->
  In person dets /\ condition person = "person" /\
  In forklift dets /\ condition forklift = "forklift" /\
  close person forklift = true.
Proof.
  unfold qualifying_pairs. rewrite in_flat_map. split.
  - intros (p & Hp & H). apply in_flat_map in H. destruct H as (f & Hf & H).
    apply filter_In in Hp, Hf. destruct Hp as [Hp Hpc], Hf as [Hf Hfc].
    apply has_condition_true in Hpc, Hfc.
    destruct (close p f) eqn:Hclose; [|contradiction].
    destruct H as [[= <- <-] | []]. auto.
  - intros (Hp & Hpc & Hf & Hfc & Hclose). exists person. split.
    + apply filter_In. split; trivial. now apply has_condition_true.
    + apply in_flat_map. exists forklift. split.
      * apply filter_In. split; trivial. now apply has_condition_true.
      * rewrite Hclose. now left.
Qed.

Lemma compound_violation_In {rt : Runtime} stds dets person forklift m :
  In person dets -> condition person = "person" ->
  In forklift dets -> condition forklift = "forklift" ->
  In (compound_violation person forklift m)
     (direct_violations stds dets ++ compound_violations stds dets) ->
  close person forklift = true.
Proof.
  intros Hp Hpc Hf Hfc Hin. apply in_app_iff in Hin. destruct Hin as [Hd | Hc].
  - apply direct_origin in Hd. destruct Hd as (det & m' & _ & _ & Heq).
    symmetry in Heq. now apply direct_is_not_compound in Heq.
  - apply compound_origin in Hc.
    destruct Hc as (p' & f' & m' & _ & _ & _ & _ & Hclose & _ & Heq).
    unfold compound_violation, with_match in Heq.
    injection Heq as _ _ _ _ _ Hpb Hfb.
    unfold close, center_distance in *. now rewrite Hpb, Hfb.
Qed.

Lemma _euclidean_distance_returns {rt : Runtime} p1 p2 distance :
  _euclidean_distance p1 p2 = inr distance ->
  exists dx2 dy2,
    pow2 (fst p1 - fst p2) = inr dx2 /\
    pow2 (snd p1 - snd p2) = inr dy2 /\
    distance = PrimFloat.sqrt (dx2 + dy2).
Proof.
  unfold _euclidean_distance, and_then.
  destruct (pow2 (fst p1 - fst p2)) as [e|dx2]; [discriminate|].
  destruct (pow2 (snd p1 - snd p2)) as [e|dy2]; [discriminate|].
  intros [= <-]. now exists dx2, dy2.
Qed.

(** A negative number has its sign bit set, and then its opposite is its
    absolute value; a number that is neither negative nor a NaN nor a zero
    is its own absolute value. *)
Lemma opp_of_negative v :
  (v <? 0)%float = true -> (- v)%float = PrimFloat.abs v.
Proof.
  intros H. apply Prim2SF_inj. rewrite opp_spec, abs_spec.
  rewrite FloatAxioms.ltb_spec in H.
  change (Prim2SF 0%float) with (S754_zero false) in H.
  unfold SFltb, SFcompare in H.
  destruct (Prim2SF v) as [[|]|[|]| |[|] m e]; simpl in *;
    congruence.
Qed.

Lemma abs_of_positive v :
  PrimFloat.is_nan v = false -> (v =? 0)%float = false ->
  (v <? 0)%float = false -> PrimFloat.abs v = v.
Proof.
  intros Hnan Hzero Hneg. apply Prim2SF_inj. rewrite abs_spec.
  unfold PrimFloat.is_nan in Hnan.
  rewrite FloatAxioms.eqb_spec in Hnan, Hzero.
  rewrite FloatAxioms.ltb_spec in Hneg.
  change (Prim2SF 0%float) with (S754_zero false) in Hzero, Hneg.
  unfold SFeqb, SFltb, SFcompare in *.
  destruct (Prim2SF v) as [[|]|[|]| |[|] m e]; simpl in *;
    congruence.
Qed.

(** The square of an ordinary number is what the C library returns. *)
Lemma pow2_ordinary {rt : Runtime} v r :
  pow2 v = inr r ->
  PrimFloat.is_nan v = false -> PrimFloat.is_infinity v = false ->
  (v =? 0)%float = false -> (PrimFloat.abs v =? 1)%float = false ->
  r = fst (pow (PrimFloat.abs v) 2%float).
Proof.
  intros H Hnan Hinf Hzero Hone. unfold pow2 in H.
  rewrite Hnan, Hinf, Hzero in H. cbv zeta in H.
  assert (Habs : (if (v <? 0)%float then (- v)%float else v)
                 = PrimFloat.abs v).
  { destruct (v <? 0)%float eqn:Hneg.
    - now apply opp_of_negative.
    - symmetry. now apply abs_of_positive. }
  rewrite Habs, Hone in H.
  destruct (pow (PrimFloat.abs v) 2%float) as [ix e]. simpl.
  destruct (_Py_ADJUST_ERANGE1 ix e); congruence.
Qed.

(** C1.  Whenever [evaluate] returns, the distance of a person and a
    forklift of the detection list was computed, and it is the Euclidean
    distance between the centres of their boxes: each centre is the
    midpoint [((x1 + x2) / 2, (y1 + y2) / 2)] of the corners of its box, and
    the distance is the square root of the sum of the squares of the two
    offsets of the centres, each square as [** 2] computes it (for an
    ordinary offset, the value of the C library's [pow]).  The threshold is
    200.  The pair is matched if and only if the distance is strictly below
    200, and then, and only then, it gives rise to a compound violation for
    each rule entry of the proximity condition; at a distance equal to 200
    the pair is not matched and nothing is emitted for it. *)
Theorem proximity_match_iff_strictly_closer {rt : Runtime}
        self dets self' vs person forklift
        px1 py1 px2 py2 fx1 fy1 fx2 fy2 :
  evaluate dets self = (self', inr vs) ->
  In person dets -> condition person = "person" ->
  bbox person = (px1, py1, px2, py2) ->
  In forklift dets -> condition forklift = "forklift" ->
  bbox forklift = (fx1, fy1, fx2, fy2) ->
  exists dx2 dy2 distance,
    _bbox_center (bbox person)
    = ((px1 + px2) / 2, (py1 + py2) / 2)%float /\
    _bbox_center (bbox forklift)
    = ((fx1 + fx2) / 2, (fy1 + fy2) / 2)%float /\
    pow2 ((px1 + px2) / 2 - (fx1 + fx2) / 2)%float = inr dx2 /\
    pow2 ((py1 + py2) / 2 - (fy1 + fy2) / 2)%float = inr dy2 /\
    (forall v r,
        pow2 v = inr r ->
        PrimFloat.is_nan v = false -> PrimFloat.is_infinity v = false ->
        (v =? 0)%float = false -> (PrimFloat.abs v =? 1)%float = false ->
        r = fst (pow (PrimFloat.abs v) 2%float)) /\
    distance = PrimFloat.sqrt (dx2 + dy2)%float /\
    _euclidean_distance (_bbox_center (bbox person))
                        (_bbox_center (bbox forklift)) = inr distance /\
    threshold = 200%float /\
    (In (person, forklift) (qualifying_pairs dets) <->
     (distance <? 200)%float = true) /\
    (forall ms m,
        snd (_lookup_condition proximity_condition self) = inr ms ->
        In m ms ->
        (In (compound_violation person forklift m) vs <->
         (distance <? 200)%float = true)) /\
    (distance = 200%float ->
     ~ In (person, forklift) (qualifying_pairs dets) /\
     forall m, ~ In (compound_violation person forklift m) vs).
Proof.
  intros Hev Hp Hpc Hpb Hf Hfc Hfb.
  apply evaluate_returns in Hev. destruct Hev as (-> & -> & Hok & Hpairs).
  assert (Hstore : store_ok (standards self) = true).
  { apply Hok. intros ->. contradiction. }
  pose proof (pairs_ok_measurable _ _ _ Hpairs Hp Hpc Hf Hfc) as Hmeas.
  pose proof (compound_violation_In (standards self) dets person forklift)
    as Honly.
  pose proof (qualifying_pairs_In dets person forklift) as Hpair.
  assert (Hemit : forall m,
             In m (lookup (standards self) proximity_condition) ->
             close person forklift = true ->
             In (compound_violation person forklift m)
                (direct_violations (standards self) dets ++
                 compound_violations (standards self) dets)).
  { intros m Hm Hclose. apply in_app_iff. right. apply compound_origin.
    exists person, forklift, m. auto 10. }
  unfold close, measurable, center_distance in *.
  destruct (_euclidean_distance _ _) as [e | distance] eqn:Hd;
    [discriminate|].
  destruct (_euclidean_distance_returns _ _ _ Hd) as (dx2 & dy2 & Hx & Hy & ->).
  rewrite Hpb, Hfb in Hx, Hy. simpl in Hx, Hy.
  exists dx2, dy2, (PrimFloat.sqrt (dx2 + dy2)).
  rewrite Hpb, Hfb.
  split; [reflexivity|]. split; [reflexivity|].
  split; [exact Hx|]. split; [exact Hy|].
  split; [intros v r; apply pow2_ordinary|].
  split; [reflexivity|].
  split; [reflexivity|]. split; [reflexivity|].
  change 200%float with threshold.
  split; [|split].
  - rewrite Hpair. tauto.
  - intros ms m Hms Hm.
    rewrite (_lookup_condition_ok _ _ Hstore) in Hms. simpl in Hms.
    injection Hms as <-. split; [now apply Honly | now apply Hemit].
  - intros Heq. rewrite Heq in *. split.
    + rewrite Hpair. intros (_ & _ & _ & _ & H). discriminate H.
    + intros m Hin. apply Honly in Hin; trivial. discriminate Hin.
Qed.

Lemma proximity_match_iff_strictly_closer_witness :
  exists dx2 dy2 distance,
    _bbox_center (bbox person_100)
    = ((80 + 120) / 2, (60 + 140) / 2)%float /\
    _bbox_center (bbox forklift_150)
    = ((120 + 180) / 2, (70 + 130) / 2)%float /\
    pow2 ((80 + 120) / 2 - (120 + 180) / 2)%float = inr dx2 /\
    pow2 ((60 + 140) / 2 - (70 + 130) / 2)%float = inr dy2 /\
    (forall v r,
        pow2 v = inr r ->
        PrimFloat.is_nan v = false -> PrimFloat.is_infinity v = false ->
        (v =? 0)%float = false -> (PrimFloat.abs v =? 1)%float = false ->
        r = fst (pow (PrimFloat.abs v) 2%float)) /\
    distance = PrimFloat.sqrt (dx2 + dy2)%float /\
    _euclidean_distance (_bbox_center (bbox person_100))
                        (_bbox_center (bbox forklift_150)) = inr distance /\
    threshold = 200%float /\
    (In (person_100, forklift_150)
        (qualifying_pairs [person_100; forklift_150; forklift_300]) <->
     (distance <? 200)%float = true) /\
    (forall ms m,
        snd (_lookup_condition proximity_condition proximity_engine)
        = inr ms ->
        In m ms ->
        (In (compound_violation person_100 forklift_150 m)
            [compound_violation person_100 forklift_150 proximity_match] <->
         (distance <? 200)%float = true)) /\
    (distance = 200%float ->
     ~ In (person_100, forklift_150)
          (qualifying_pairs [person_100; forklift_150; forklift_300]) /\
     forall m,
       ~ In (compound_violation person_100 forklift_150 m)
            [compound_violation person_100 forklift_150 proximity_match]).
Proof.
  apply (proximity_match_iff_strictly_closer
           proximity_engine [person_100; forklift_150; forklift_300]
           proximity_engine
           [compound_violation person_100 forklift_150 proximity_match]).
  - reflexivity.
  - simpl; auto.
  - reflexivity.
  - reflexivity.
  - simpl; auto.
  - reflexivity.
  - reflexivity.
Defined.

(** The two sides of the boundary in the scenarios: distance 50 and 150
    match, distance 200 and 250 do not. *)
Example distances_of_the_scenarios :
  center_distance person_100 forklift_150 = inr 50%float /\
  center_distance person_100 forklift_250 = inr 150%float /\
  center_distance person_100 forklift_300 = inr 200%float /\
  center_distance person_100 forklift_350 = inr 250%float /\
  center_distance person_origin forklift_1e200 = inl OverflowError.
Proof. repeat split; reflexivity. Qed.

Example boundary_of_the_threshold :
  evaluate [person_100; forklift_150; forklift_300; forklift_350]
           proximity_engine
  = (proximity_engine,
     inr [compound_violation person_100 forklift_150 proximity_match])
  /\ close person_100 forklift_250 = true
  /\ close person_100 forklift_300 = false.
Proof. repeat split; reflexivity. Qed.

(** Next to the threshold the last bit of the C library's [pow] decides.
    For a forklift centred at (167.6498217534581, 109.05749523088141) and a
    person at the origin, the rounded square of the vertical offset is
    11893.537266033723, the distance is 200.0 and the pair is not matched;
    a library that returns 11893.537266033722 gives the distance
    199.99999999999997, and the pair is matched. *)
Example the_last_bit_of_pow_decides :
  @center_distance scenario_runtime person_origin forklift_near_200
  = inr 200%float
  /\ @close scenario_runtime person_origin forklift_near_200 = false
  /\ @center_distance observed_runtime person_origin forklift_near_200
     = inr 199.99999999999997%float
  /\ @close observed_runtime person_origin forklift_near_200 = true.
Proof. repeat split; reflexivity. Qed.

(** ** The minimum of two confidences *)

Lemma SFcompare_flip x y :
  SFcompare x y = option_map CompOpp (SFcompare y x).
Proof.
  destruct x as [sx|sx| |sx mx ex], y as [sy|sy| |sy my ey]; simpl;
    try reflexivity;
    try (destruct sx; reflexivity); try (destruct sy; reflexivity);
    try (destruct sx, sy; reflexivity).
  f_equal. destruct sx, sy; try reflexivity;
    rewrite (Z.compare_antisym ey ex);
    destruct (ey ?= ex)%Z; simpl; try reflexivity;
    change (Pos.compare_cont Eq mx my) with (Pos.compare mx my);
    change (Pos.compare_cont Eq my mx) with (Pos.compare my mx);
    rewrite (Pos.compare_antisym my mx); now destruct (my ?= mx)%positive.
Qed.

Lemma leb_of_not_ltb a b :
  PrimFloat.is_nan a = false -> PrimFloat.is_nan b = false ->
  (b <? a)%float = false -> (a <=? b)%float = true.
Proof.
  unfold PrimFloat.is_nan. intros Ha Hb.
  apply negb_false_iff in Ha, Hb. revert Ha Hb.
  rewrite !FloatAxioms.eqb_spec, FloatAxioms.ltb_spec, FloatAxioms.leb_spec.
  unfold SFeqb, SFltb, SFleb. rewrite (SFcompare_flip (Prim2SF a) (Prim2SF b)).
  destruct (Prim2SF a) as [sx|sx| |sx mx ex], (Prim2SF b) as [sy|sy| |sy my ey];
    simpl; try discriminate; try reflexivity; intros _ _;
    try (destruct sx; simpl; congruence); try (destruct sy; simpl; congruence);
    try (destruct sx, sy; simpl; congruence).
  destruct sx, sy; simpl; try congruence;
    destruct (ey ?= ex)%Z; simpl; try congruence;
    destruct (Pos.compare_cont Eq my mx); simpl; congruence.
Qed.

Lemma leb_of_ltb a b : (b <? a)%float = true -> (b <=? a)%float = true.
Proof.
  rewrite FloatAxioms.ltb_spec, FloatAxioms.leb_spec. unfold SFltb, SFleb.
  now destruct (SFcompare _ _) as [[]|].
Qed.

Lemma leb_same a : PrimFloat.is_nan a = false -> (a <=? a)%float = true.
Proof.
  unfold PrimFloat.is_nan. intros Ha. apply negb_false_iff in Ha. revert Ha.
  rewrite FloatAxioms.eqb_spec, FloatAxioms.leb_spec. unfold SFeqb, SFleb.
  now destruct (SFcompare _ _) as [[]|].
Qed.

Lemma py_min_le a b :
  PrimFloat.is_nan a = false -> PrimFloat.is_nan b = false ->
  (py_min a b <=? a)%float = true /\ (py_min a b <=? b)%float = true.
Proof.
  intros Ha Hb. unfold py_min. destruct (b <? a)%float eqn:H.
  - split; [now apply leb_of_ltb | now apply leb_same].
  - split; [now apply leb_same | now apply leb_of_not_ltb].
Qed.

Lemma py_min_either a b : py_min a b = a \/ py_min a b = b.
Proof. unfold py_min. destruct (b <? a)%float; auto. Qed.

(** C2.  Whenever [evaluate] returns, every violation with two-box
    evidence stems from a person and a forklift of the detection list with
    these boxes, and its confidence is [min] of their two confidences: it is
    one of the two and, when neither is a NaN, it is below or equal to
    both. *)
Theorem compound_confidence_is_min {rt : Runtime} self dets self' vs v pb fb :
  evaluate dets self = (self', inr vs) ->
  In v vs ->
  v_evidence v = TwoBoxes pb fb ->
  exists person forklift,
    In person dets /\ condition person = "person" /\ bbox person = pb /\
    In forklift dets /\ condition forklift = "forklift" /\
    bbox forklift = fb /\
    v_confidence v = py_min (confidence person) (confidence forklift) /\
    (v_confidence v = confidence person \/
     v_confidence v = confidence forklift) /\
    (PrimFloat.is_nan (confidence person) = false ->
     PrimFloat.is_nan (confidence forklift) = false ->
     (v_confidence v <=? confidence person)%float = true /\
     (v_confidence v <=? confidence forklift)%float = true).
Proof.
  intros Hev Hin Hevd.
  apply evaluate_returns in Hev. destruct Hev as (_ & -> & _).
  apply in_app_iff in Hin. destruct Hin as [Hd | Hc].
  - apply direct_origin in Hd. destruct Hd as (det & m & _ & _ & ->).
    discriminate Hevd.
  - apply compound_origin in Hc.
    destruct Hc as (person & forklift & m & Hp & Hpc & Hf & Hfc & _ & _ & ->).
    simpl in Hevd. injection Hevd as <- <-.
    exists person, forklift. simpl.
    repeat (split; trivial).
    + apply py_min_either.
    + now apply py_min_le.
    + now apply py_min_le.
Qed.

Lemma compound_confidence_is_min_witness :
  exists person forklift,
    In person [person_100; forklift_150] /\ condition person = "person" /\
    bbox person = bbox person_100 /\
    In forklift [person_100; forklift_150] /\
    condition forklift = "forklift" /\
    bbox forklift = bbox forklift_150 /\
    0.6%float = py_min (confidence person) (confidence forklift) /\
    (0.6%float = confidence person \/ 0.6%float = confidence forklift) /\
    (PrimFloat.is_nan (confidence person) = false ->
     PrimFloat.is_nan (confidence forklift) = false ->
     (0.6 <=? confidence person)%float = true /\
     (0.6 <=? confidence forklift)%float = true).
Proof.
  apply (compound_confidence_is_min
           proximity_engine [person_100; forklift_150] proximity_engine
           [compound_violation person_100 forklift_150 proximity_match]
           (compound_violation person_100 forklift_150 proximity_match)).
  - reflexivity.
  - simpl; auto.
  - reflexivity.
Defined.

(** ** Construction of the rule store *)

Lemma _load_standards_outcome {rt : Runtime} files : forall self,
  _load_standards (Listing files) self
  = match first_failure files with
    | Some e => (mkEngine (loaded_standards files (standards self)), inl e)
    | None => (mkEngine (loaded_standards files (standards self)), inr tt)
    end.
Proof.
  unfold _load_standards. simpl glob_json.
  unfold bind at 1. unfold lift at 1.
  induction files as [|f files IH]; intros self; simpl.
  - now destruct self.
  - unfold bind at 1. unfold bind at 1. unfold lift.
    destruct (load f) as [e | data]; simpl.
    + now destruct self.
    + unfold bind at 1. unfold get_standards, set_standards.
      now rewrite IH.
Qed.

Lemma first_failure_some files e :
  first_failure files = Some e -> exists f, In f files /\ load f = inl e.
Proof.
  induction files as [|f files IH]; simpl; [discriminate|].
  destruct (load f) as [e' | data] eqn:Hf.
  - intros [= <-]. exists f. auto.
  - intros H. destruct (IH H) as (f' & Hin & Hl). exists f'. auto.
Qed.

Lemma first_failure_none files :
  first_failure files = None ->
  forall f, In f files -> exists data, load f = inr data.
Proof.
  induction files as [|f files IH]; simpl; [contradiction|].
  destruct (load f) as [e | data] eqn:Hf; [discriminate|].
  intros H f' [<- | Hin]; eauto.
Qed.

Lemma new_ViolationEngine_outcome {rt : Runtime} dir :
  new_ViolationEngine dir
  = match glob_json dir with
    | inl e => inl e
    | inr files =>
        match first_failure files with
        | Some e => inl e
        | None => inr (mkEngine (loaded_standards files []))
        end
    end.
Proof.
  unfold new_ViolationEngine, __init__.
  unfold bind at 1. unfold set_standards at 1.
  destruct dir as [| | |files]; simpl glob_json; try reflexivity.
  rewrite _load_standards_outcome. simpl standards.
  now destruct (first_failure files).
Qed.

(** C3, as amended.  Construction raises in two cases and in no other:
    the scan of the directory raises, as it does for a path below a
    directory that may not be searched, or a document that the scan yields
    cannot be opened or parsed.  The exception is the one of the scan or of
    that document, and the caller gets no engine, so no store that was
    loaded in part.  Otherwise every document was loaded and the engine
    holds them all.  A directory that is missing, and one whose entries may
    not be listed, are scanned as empty: construction returns an engine
    with no standards. *)
Theorem construction_fails_on_a_bad_document {rt : Runtime} :
  (forall dir,
     match new_ViolationEngine dir with
     | inl e =>
         glob_json dir = inl e \/
         exists files f,
           glob_json dir = inr files /\ In f files /\ load f = inl e
     | inr self =>
         exists files,
           glob_json dir = inr files /\
           (forall f, In f files -> exists data, load f = inr data) /\
           standards self = loaded_standards files []
     end)
  /\ (forall files f e,
        In f files -> load f = inl e ->
        exists e', new_ViolationEngine (Listing files) = inl e')
  /\ new_ViolationEngine Inaccessible = inl OSError
  /\ new_ViolationEngine Missing = inr (mkEngine [])
  /\ new_ViolationEngine Unreadable = inr (mkEngine []).
Proof.
  assert (Hall : forall dir,
     match new_ViolationEngine dir with
     | inl e =>
         glob_json dir = inl e \/
         exists files f,
           glob_json dir = inr files /\ In f files /\ load f = inl e
     | inr self =>
         exists files,
           glob_json dir = inr files /\
           (forall f, In f files -> exists data, load f = inr data) /\
           standards self = loaded_standards files []
     end).
  { intros dir. rewrite new_ViolationEngine_outcome.
    destruct (glob_json dir) as [e|files]; [now left|].
    destruct (first_failure files) as [e|] eqn:Hff.
    - right. exists files.
      destruct (first_failure_some _ _ Hff) as (f & Hin & Hload).
      now exists f.
    - exists files. split; [reflexivity|].
      split; [now apply first_failure_none | reflexivity]. }
  split; [exact Hall|]. split; [|repeat split; reflexivity].
  intros files f e Hin Hload. specialize (Hall (Listing files)).
  destruct (new_ViolationEngine (Listing files)) as [e' | self].
  - now exists e'.
  - destruct Hall as (files' & [= <-] & Hgood & _).
    destruct (Hgood f Hin) as [data Hdata]. congruence.
Qed.

Lemma construction_fails_on_a_bad_document_witness :
  exists e', new_ViolationEngine broken_directory = inl e'.
Proof.
  apply (proj1 (proj2 construction_fails_on_a_bad_document)
               _ (mkFile "ansi" (inl JSONDecodeError)) JSONDecodeError).
  - simpl; auto.
  - reflexivity.
Defined.

(** C3, as stated, fails: a missing directory, and one whose entries may
    not be listed, do not make construction fail. *)
Lemma missing_directory_constructs :
  new_ViolationEngine Missing = inr (mkEngine []) /\
  new_ViolationEngine Unreadable = inr (mkEngine []) /\
  (forall e, new_ViolationEngine Missing <> inl e).
Proof. repeat split. intros e. discriminate. Qed.

Example construction_scenarios :
  new_ViolationEngine standards_directory = inr osha_engine /\
  new_ViolationEngine broken_directory = inl JSONDecodeError /\
  new_ViolationEngine Inaccessible = inl OSError.
Proof. repeat split; reflexivity. Qed.

(** ** Order of the violations *)

(** C4.  Whenever [evaluate] returns, its list is the direct violations,
    detection by detection in input order and, for one detection, in the
    order of lookup, followed by the compound violations, pair by pair in
    the order of the nested loops (persons outside, forklifts inside, both
    in input order) and, for one pair, in the order of lookup.  The lookup
    order is the one [_lookup_condition] returns, and the same engine and
    detections give the same outcome. *)
Theorem evaluate_order {rt : Runtime} self dets self' vs :
  evaluate dets self = (self', inr vs) ->
  vs = flat_map (fun det =>
                   map (direct_violation det)
                       (lookup (standards self) (condition det)))
                dets
       ++ flat_map (fun person =>
                      flat_map (fun forklift =>
                                  if close person forklift
                                  then map (compound_violation person forklift)
                                           (lookup (standards self)
                                                   proximity_condition)
                                  else [])
                               (filter (has_condition "forklift") dets))
                   (filter (has_condition "person") dets)
  /\ (dets <> [] ->
      forall c, _lookup_condition c self
                = (self, inr (lookup (standards self) c)))
  /\ (forall out, evaluate dets self = out -> out = (self', inr vs)).
Proof.
  intros Hev. pose proof (evaluate_returns _ _ _ _ Hev) as (-> & -> & Hok).
  split; [reflexivity|]. split.
  - intros Hne c. apply _lookup_condition_ok. now apply Hok.
  - intros out <-. exact Hev.
Qed.

Lemma evaluate_order_witness :
  [direct_violation hardhat_detection hardhat_match;
   direct_violation hardhat_detection site_match;
   compound_violation person_100 forklift_150 proximity_match]
  = flat_map (fun det =>
                map (direct_violation det)
                    (lookup (standards site_engine) (condition det)))
             [person_100; hardhat_detection; forklift_150]
    ++ flat_map (fun person =>
                   flat_map (fun forklift =>
                               if close person forklift
                               then map (compound_violation person forklift)
                                        (lookup (standards site_engine)
                                                proximity_condition)
                               else [])
                            (filter (has_condition "forklift")
                                    [person_100; hardhat_detection;
                                     forklift_150]))
                (filter (has_condition "person")
                        [person_100; hardhat_detection; forklift_150])
  /\ ([person_100; hardhat_detection; forklift_150] <> [] ->
      forall c, _lookup_condition c site_engine
                = (site_engine, inr (lookup (standards site_engine) c)))
  /\ (forall out,
        evaluate [person_100; hardhat_detection; forklift_150] site_engine
        = out ->
        out = (site_engine,
               inr [direct_violation hardhat_detection hardhat_match;
                    direct_violation hardhat_detection site_match;
                    compound_violation person_100 forklift_150
                                       proximity_match])).
Proof.
  apply (evaluate_order site_engine
           [person_100; hardhat_detection; forklift_150]).
  reflexivity.
Defined.

(** ** Direct violations *)

Lemma lookup_intro {rt : Runtime} stds c std_name doc citation entry :
  In (std_name, doc) stds ->
  In (citation, entry) (fields_of doc) ->
  field entry "condition" JNull = JString c ->
  In (rule_entry std_name citation entry) (lookup stds c).
Proof.
  intros Hdoc Hentry Hcond. unfold lookup. apply in_flat_map.
  exists (std_name, doc). split; trivial.
  unfold lookup_doc. apply in_flat_map.
  exists (citation, entry). split; trivial.
  unfold lookup_entry, applies_to; simpl. rewrite Hcond; simpl.
  rewrite String.eqb_refl. now left.
Qed.

Lemma eq_str_true v c : eq_str v c = true -> v = JString c.
Proof.
  destruct v; simpl; try discriminate.
  intros H. apply String.eqb_eq in H. now subst.
Qed.

Lemma lookup_origin {rt : Runtime} stds c m :
  In m (lookup stds c) ->
  exists std_name doc citation entry,
    In (std_name, doc) stds /\
    In (citation, entry) (fields_of doc) /\
    field entry "condition" JNull = JString c /\
    m = rule_entry std_name citation entry.
Proof.
  unfold lookup. intros H. apply in_flat_map in H.
  destruct H as ([std_name doc] & Hdoc & H).
  unfold lookup_doc in H. apply in_flat_map in H.
  destruct H as ([citation entry] & Hentry & H).
  unfold lookup_entry in H; simpl in H.
  destruct (applies_to entry c) eqn:Happ; [|contradiction].
  destruct H as [<- | []].
  exists std_name, doc, citation, entry.
  repeat split; trivial. now apply eq_str_true.
Qed.

(** C5.  Whenever [evaluate] returns, a detection whose condition is the
    condition of a rule entry gives a violation made of the entry's
    standard in upper case, its citation, its description and its severity
    (the condition is dropped), the confidence of the detection, and its
    box and class name as evidence.  On the store and the detection of the
    hard-hat scenario, whatever the class name of the detection, the outcome
    is that one violation and nothing else. *)
Theorem direct_violation_fields {rt : Runtime} :
  (forall self dets self' vs det std_name doc citation entry,
      evaluate dets self = (self', inr vs) ->
      In det dets ->
      In (std_name, doc) (standards self) ->
      In (citation, entry) (fields_of doc) ->
      field entry "condition" JNull = JString (condition det) ->
      In (mkViolation (upper std_name) citation
                      (field entry "description" (JString ""))
                      (field entry "severity" (JString ""))
                      (confidence det)
                      (SingleBox (bbox det) (class_name det)))
         vs)
  /\ (forall cls,
        evaluate [mkDetection cls "hardhat_missing" 0.91%float
                              (10, 10, 50, 80)%float]
                 osha_engine
        = (osha_engine,
           inr [mkViolation "OSHA" "1926.100"
                            (JString "Head protection required")
                            (JString "high") 0.91%float
                            (SingleBox (10, 10, 50, 80)%float cls)])).
Proof.
  split.
  2:{ intros cls. rewrite evaluate_ok by reflexivity.
      unfold direct_violations, compound_violations, lookup, lookup_doc,
        lookup_entry, rule_entry; simpl.
      now rewrite (upper_ascii "osha" eq_refl). }
  intros self dets self' vs det std_name doc citation entry
         Hev Hdet Hdoc Hentry Hcond.
  apply evaluate_returns in Hev. destruct Hev as (_ & -> & _).
  apply in_app_iff. left. apply direct_origin.
  exists det, (rule_entry std_name citation entry).
  split; [assumption|]. split; [|reflexivity].
  now apply (lookup_intro _ _ std_name doc citation entry).
Qed.

Lemma direct_violation_fields_witness :
  In (mkViolation (upper "osha") "1926.100"
                  (field hardhat_entry "description" (JString ""))
                  (field hardhat_entry "severity" (JString ""))
                  (confidence hardhat_detection)
                  (SingleBox (bbox hardhat_detection)
                             (class_name hardhat_detection)))
     [hardhat_violation].
Proof.
  apply (proj1 direct_violation_fields
               osha_engine [hardhat_detection] osha_engine
               [hardhat_violation] hardhat_detection
               "osha" osha_document "1926.100" hardhat_entry).
  - reflexivity.
  - simpl; auto.
  - simpl; auto.
  - simpl; auto.
  - reflexivity.
Defined.

(** ** Totality of evaluation *)

Lemma lookup_unmentioned {rt : Runtime} stds c :
  mentioned stds c = false -> lookup stds c = [].
Proof.
  unfold mentioned, lookup. induction stds as [|[std_name doc] stds IH]; simpl.
  - reflexivity.
  - intros H. apply orb_false_iff in H. destruct H as [Hdoc Hrest].
    rewrite (IH Hrest), app_nil_r. unfold lookup_doc; simpl.
    clear IH Hrest. induction (fields_of doc) as [|[citation entry] es IHe];
      simpl in *; [reflexivity|].
    apply orb_false_iff in Hdoc. destruct Hdoc as [He Hes].
    unfold lookup_entry at 1; simpl. rewrite He. simpl. now apply IHe.
Qed.

Lemma filter_repeat_false {A} (f : A -> bool) x k :
  f x = false -> filter f (repeat x k) = [].
Proof. intros H. induction k; simpl; [|rewrite H]; trivial. Qed.

(** Copies of one detection never form a (person, forklift) pair. *)
Lemma compound_violations_repeat {rt : Runtime} stds det k :
  compound_violations stds (repeat det k) = [].
Proof.
  unfold compound_violations.
  destruct (has_condition "person" det) eqn:Hp.
  - assert (Hf : has_condition "forklift" det = false).
    { apply has_condition_true in Hp. unfold has_condition. now rewrite Hp. }
    rewrite (filter_repeat_false _ _ _ Hf). apply flat_map_empty.
  - now rewrite (filter_repeat_false _ _ _ Hp).
Qed.

Lemma direct_violations_app {rt : Runtime} stds xs ys :
  direct_violations stds (xs ++ ys)
  = direct_violations stds xs ++ direct_violations stds ys.
Proof. unfold direct_violations. apply flat_map_app. Qed.

Lemma pairs_ok_repeat {rt : Runtime} det k : pairs_ok (repeat det k) = true.
Proof.
  unfold pairs_ok.
  destruct (has_condition "person" det) eqn:Hp.
  - assert (Hf : has_condition "forklift" det = false).
    { apply has_condition_true in Hp. unfold has_condition. now rewrite Hp. }
    rewrite (filter_repeat_false _ _ _ Hf).
    apply forallb_forall. reflexivity.
  - now rewrite (filter_repeat_false _ _ _ Hp).
Qed.

(** C6, as amended.  On an engine whose documents are all objects with
    objects as values, and on detections in which the distance of every
    person and forklift can be computed (no square raises), [evaluate]
    returns a list and raises nothing; the empty detection list gives the
    empty list (on any engine); a condition that no loaded entry carries
    makes lookup return the empty list; a detection with such a condition
    gives no violation, alone or among others. *)
Theorem evaluate_total_on_object_documents {rt : Runtime} self dets :
  store_ok (standards self) = true ->
  pairs_ok dets = true ->
  (exists vs, evaluate dets self = (self, inr vs)) /\
  (forall engine, evaluate [] engine = (engine, inr [])) /\
  (forall c, mentioned (standards self) c = false ->
             _lookup_condition c self = (self, inr [])) /\
  (forall det, mentioned (standards self) (condition det) = false ->
               evaluate [det] self = (self, inr [])) /\
  (forall pre det post,
      mentioned (standards self) (condition det) = false ->
      direct_violations (standards self) (pre ++ det :: post)
      = direct_violations (standards self) (pre ++ post)).
Proof.
  intros Hok Hpairs. split; [|split; [|split; [|split]]].
  - eexists. now apply evaluate_ok.
  - intros engine. reflexivity.
  - intros c Hc. rewrite (_lookup_condition_ok _ _ Hok).
    now rewrite (lookup_unmentioned _ _ Hc).
  - intros det Hc. change [det] with (repeat det 1).
    rewrite (evaluate_ok _ _ Hok (pairs_ok_repeat det 1)).
    rewrite compound_violations_repeat.
    simpl. now rewrite (lookup_unmentioned _ _ Hc).
  - intros pre det post Hc.
    rewrite !direct_violations_app. f_equal.
    change (det :: post) with ([det] ++ post).
    rewrite direct_violations_app. unfold direct_violations at 1; simpl.
    now rewrite (lookup_unmentioned _ _ Hc).
Qed.

Lemma evaluate_total_on_object_documents_witness :
  (exists vs, evaluate [person_100; hardhat_detection; forklift_150]
                       osha_engine
              = (osha_engine, inr vs)) /\
  (forall engine, evaluate [] engine = (engine, inr [])) /\
  (forall c, mentioned (standards osha_engine) c = false ->
             _lookup_condition c osha_engine = (osha_engine, inr [])) /\
  (forall det, mentioned (standards osha_engine) (condition det) = false ->
               evaluate [det] osha_engine = (osha_engine, inr [])) /\
  (forall pre det post,
      mentioned (standards osha_engine) (condition det) = false ->
      direct_violations (standards osha_engine) (pre ++ det :: post)
      = direct_violations (standards osha_engine) (pre ++ post)).
Proof.
  apply (evaluate_total_on_object_documents
           osha_engine [person_100; hardhat_detection; forklift_150]).
  - reflexivity.
  - reflexivity.
Defined.

(** C6, as stated, fails.  A document whose entry is a string parses, the
    engine is constructed, and evaluating one detection raises.  On a
    well-formed store, a person and a forklift whose boxes are 1e200 apart
    make the square of the offset overflow, and [evaluate] raises as
    well. *)
Lemma evaluate_can_raise :
  new_ViolationEngine flat_directory = inr flat_engine /\
  evaluate [hardhat_detection] flat_engine = (flat_engine, inl AttributeError)
  /\ new_ViolationEngine standards_directory = inr osha_engine
  /\ evaluate [person_origin; forklift_1e200] osha_engine
     = (osha_engine, inl OverflowError).
Proof. repeat split; reflexivity. Qed.

(** ** The threshold *)

(** C7, as amended.  The threshold is the constant 200.0 inside [evaluate],
    which takes the detection list and nothing else: whenever [evaluate]
    returns, a person and a forklift were matched exactly when their
    distance is below 200.0. *)
Theorem threshold_is_fixed {rt : Runtime} self dets self' vs :
  evaluate dets self = (self', inr vs) ->
  threshold = 200%float /\
  vs = direct_violations (standards self) dets ++
       flat_map
         (fun person =>
            flat_map
              (fun forklift =>
                 match _euclidean_distance (_bbox_center (bbox person))
                                           (_bbox_center (bbox forklift))
                 with
                 | inr distance =>
                     if (distance <? 200)%float
                     then map (compound_violation person forklift)
                              (lookup (standards self) proximity_condition)
                     else []
                 | inl _ => []
                 end)
              (filter (has_condition "forklift") dets))
         (filter (has_condition "person") dets).
Proof.
  intros Hev. split; [reflexivity|].
  apply evaluate_returns in Hev. destruct Hev as (_ & -> & _ & _).
  f_equal. unfold compound_violations.
  apply flat_map_ext. intros person. apply flat_map_ext. intros forklift.
  unfold pair_violations, close, center_distance.
  now destruct (_euclidean_distance _ _).
Qed.

Lemma threshold_is_fixed_witness :
  threshold = 200%float /\
  [compound_violation person_100 forklift_250 proximity_match]
  = direct_violations (standards proximity_engine)
                      [person_100; forklift_250; forklift_300] ++
    flat_map
      (fun person =>
         flat_map
           (fun forklift =>
              match _euclidean_distance (_bbox_center (bbox person))
                                        (_bbox_center (bbox forklift))
              with
              | inr distance =>
                  if (distance <? 200)%float
                  then map (compound_violation person forklift)
                           (lookup (standards proximity_engine)
                                   proximity_condition)
                  else []
              | inl _ => []
              end)
           (filter (has_condition "forklift")
                   [person_100; forklift_250; forklift_300]))
      (filter (has_condition "person")
              [person_100; forklift_250; forklift_300]).
Proof.
  apply (threshold_is_fixed proximity_engine
           [person_100; forklift_250; forklift_300] proximity_engine).
  reflexivity.
Defined.

(** C7, as stated, fails: for the threshold 100 of a caller's choice, a
    person and a forklift at distance 150 are not closer than 100, and
    [evaluate] matches them all the same. *)
Lemma match_beyond_a_chosen_threshold :
  center_distance person_100 forklift_250 = inr 150%float /\
  (150 <? 100)%float = false /\
  evaluate [person_100; forklift_250] proximity_engine
  = (proximity_engine,
     inr [compound_violation person_100 forklift_250 proximity_match]).
Proof. repeat split; reflexivity. Qed.

(** ** The engine is left as it was *)

Lemma read_only_ret {A} (a : A) : read_only (ret a).
Proof. intros self. reflexivity. Qed.

Lemma read_only_raise {A} (e : exn) : read_only (@raise A e).
Proof. intros self. reflexivity. Qed.

Lemma read_only_get_standards : read_only get_standards.
Proof. intros self. reflexivity. Qed.

Lemma read_only_lift {A} (r : result A) : read_only (lift r).
Proof. intros self. reflexivity. Qed.

Lemma read_only_bind {A B} (m : M A) (k : A -> M B) :
  read_only m -> (forall a, read_only (k a)) -> read_only (bind m k).
Proof.
  intros Hm Hk self. unfold bind. specialize (Hm self).
  destruct (m self) as [self' [e | a]]; simpl in *; subst; trivial.
  apply Hk.
Qed.

Lemma read_only_for_each {A S} (xs : list A) (body : A -> S -> M S) :
  (forall x acc, read_only (body x acc)) ->
  forall acc, read_only (for_each xs body acc).
Proof.
  intros Hbody. induction xs as [|x xs IH]; intros acc; simpl.
  - apply read_only_ret.
  - apply read_only_bind; auto.
Qed.

Lemma read_only_items v : read_only (items v).
Proof. destruct v; simpl; auto using @read_only_ret, @read_only_raise. Qed.

Lemma read_only_get v key default : read_only (get v key default).
Proof. destruct v; simpl; auto using @read_only_ret, @read_only_raise. Qed.

Lemma read_only_lookup {rt : Runtime} c : read_only (_lookup_condition c).
Proof.
  unfold _lookup_condition.
  apply read_only_bind; [apply read_only_get_standards|]. intros stds.
  apply read_only_for_each. intros [std_name mapping] matches.
  apply read_only_bind; [apply read_only_items|]. intros its.
  apply read_only_for_each. intros [citation entry] acc.
  apply read_only_bind; [apply read_only_get|]. intros c0.
  destruct (eq_str c0 c); [|apply read_only_ret].
  apply read_only_bind; [apply read_only_get|]. intros d.
  apply read_only_bind; [apply read_only_get|]. intros s.
  apply read_only_ret.
Qed.

Lemma read_only_evaluate {rt : Runtime} dets : read_only (evaluate dets).
Proof.
  unfold evaluate. apply read_only_bind.
  - apply read_only_for_each. intros det acc.
    apply read_only_bind; [apply read_only_lookup|]. intros matches.
    apply read_only_for_each. intros m acc'. apply read_only_ret.
  - intros violations.
    destruct (truthy _ && truthy _); [|apply read_only_ret].
    apply read_only_for_each. intros person acc.
    apply read_only_for_each. intros forklift acc'.
    apply read_only_bind; [apply read_only_lift|]. intros distance.
    destruct (_ <? threshold)%float; [|apply read_only_ret].
    apply read_only_bind; [apply read_only_lookup|]. intros matches.
    apply read_only_for_each. intros m acc''. apply read_only_ret.
Qed.

(** C8.  [evaluate] leaves the engine as it found it, whether it returns
    or raises: the standards after the call are the standards before it,
    the same holds for lookup, and a call has no influence on the outcome of
    a later call. *)
Theorem evaluate_leaves_the_store_unchanged {rt : Runtime} :
  forall self dets,
    fst (evaluate dets self) = self /\
    standards (fst (evaluate dets self)) = standards self /\
    (forall c, fst (_lookup_condition c self) = self) /\
    (forall later, evaluate later (fst (evaluate dets self))
                   = evaluate later self).
Proof.
  intros self dets. pose proof (read_only_evaluate dets self) as H.
  rewrite H. repeat split; trivial.
  intros c. apply read_only_lookup.
Qed.

(** ** No deduplication *)

Lemma flat_map_repeat {A B} (f : A -> list B) x k :
  flat_map f (repeat x k) = concat (repeat (f x) k).
Proof. induction k; simpl; congruence. Qed.

Lemma length_concat_repeat {A} (l : list A) k :
  length (concat (repeat l k)) = k * length l.
Proof. induction k; simpl; [|rewrite length_app]; lia. Qed.

Lemma flat_map_nested {A B C} (f : A -> list B) (g : B -> list C) l :
  flat_map g (flat_map f l) = flat_map (fun x => flat_map g (f x)) l.
Proof.
  induction l as [|x l IH]; simpl; [reflexivity|].
  now rewrite flat_map_app, IH.
Qed.

Lemma length_flat_map_maps {A B C} (h : A -> B -> C) (ms : list B) l :
  length (flat_map (fun x => map (h x) ms) l) = length l * length ms.
Proof.
  induction l as [|x l IH]; simpl; [reflexivity|].
  rewrite length_app, length_map, IH. lia.
Qed.

Lemma compound_violations_by_pair {rt : Runtime} stds dets :
  compound_violations stds dets
  = flat_map (fun pf => map (compound_violation (fst pf) (snd pf))
                            (lookup stds proximity_condition))
             (qualifying_pairs dets).
Proof.
  unfold compound_violations, qualifying_pairs.
  rewrite flat_map_nested. apply flat_map_ext. intros person.
  rewrite flat_map_nested. apply flat_map_ext. intros forklift.
  unfold pair_violations. destruct (close person forklift); simpl.
  - now rewrite app_nil_r.
  - reflexivity.
Qed.

Lemma length_direct_violations {rt : Runtime} stds dets :
  length (direct_violations stds dets)
  = list_sum (map (fun det => length (lookup stds (condition det))) dets).
Proof.
  unfold direct_violations. induction dets as [|det dets IH]; simpl.
  - reflexivity.
  - now rewrite length_app, length_map, IH.
Qed.

Lemma _lookup_condition_returns {rt : Runtime} c self ms :
  snd (_lookup_condition c self) = inr ms ->
  store_ok (standards self) = true /\ ms = lookup (standards self) c.
Proof.
  destruct (store_ok (standards self)) eqn:Hok.
  - rewrite (_lookup_condition_ok _ _ Hok). simpl. intros [= <-]. auto.
  - rewrite (_lookup_condition_raises _ _ Hok). discriminate.
Qed.

(** C9.  Nothing is deduplicated.  When lookup returns [n] entries for the
    condition of a detection, [k] copies of the detection give the [n]
    violations of the detection [k] times over, [k * n] in all.  Whenever
    [evaluate] returns on a detection list, its direct violations are one
    per detection and entry of its condition, and after them every pair that
    passes the distance test adds one compound violation for each entry
    that lookup returns for the proximity condition, whether or not equal
    ones are already in the list. *)
Theorem no_deduplication {rt : Runtime} self det k ms dets self' vs prox :
  snd (_lookup_condition (condition det) self) = inr ms ->
  evaluate dets self = (self', inr vs) ->
  snd (_lookup_condition proximity_condition self) = inr prox ->
  (evaluate (repeat det k) self
   = (self, inr (concat (repeat (map (direct_violation det) ms) k)))
   /\ length (concat (repeat (map (direct_violation det) ms) k))
      = k * length ms)
  /\ (exists direct compound,
        vs = direct ++ compound /\
        length direct
        = list_sum (map (fun d => length (lookup (standards self)
                                                 (condition d))) dets) /\
        compound
        = flat_map (fun pf => map (compound_violation (fst pf) (snd pf)) prox)
                   (qualifying_pairs dets) /\
        length compound = length (qualifying_pairs dets) * length prox).
Proof.
  intros Hms Hev Hprox.
  apply _lookup_condition_returns in Hms, Hprox.
  destruct Hms as [Hok ->], Hprox as [_ ->]. split; [split|].
  - rewrite (evaluate_ok _ _ Hok (pairs_ok_repeat det k)).
    rewrite compound_violations_repeat, app_nil_r.
    unfold direct_violations. now rewrite flat_map_repeat.
  - now rewrite length_concat_repeat, length_map.
  - apply evaluate_returns in Hev. destruct Hev as (_ & -> & _ & _).
    exists (direct_violations (standards self) dets),
           (compound_violations (standards self) dets).
    split; [reflexivity|].
    split; [apply length_direct_violations|].
    rewrite compound_violations_by_pair. split; [reflexivity|].
    apply (length_flat_map_maps
             (fun pf => compound_violation (fst pf) (snd pf))).
Qed.

Lemma no_deduplication_witness :
  (evaluate (repeat hardhat_detection 3) site_engine
   = (site_engine,
      inr (concat (repeat (map (direct_violation hardhat_detection)
                               [hardhat_match; site_match]) 3)))
   /\ length (concat (repeat (map (direct_violation hardhat_detection)
                                  [hardhat_match; site_match]) 3))
      = 3 * length [hardhat_match; site_match])
  /\ (exists direct compound,
        repeat (compound_violation person_100 forklift_150 proximity_match) 4
        = direct ++ compound /\
        length direct
        = list_sum (map (fun d => length (lookup (standards site_engine)
                                                 (condition d)))
                        [person_100; person_100; forklift_150; forklift_150])
        /\
        compound
        = flat_map (fun pf => map (compound_violation (fst pf) (snd pf))
                                  [proximity_match])
                   (qualifying_pairs
                      [person_100; person_100; forklift_150; forklift_150])
        /\
        length compound
        = length (qualifying_pairs
                    [person_100; person_100; forklift_150; forklift_150])
          * length [proximity_match]).
Proof.
  apply (no_deduplication site_engine hardhat_detection 3
           [hardhat_match; site_match]
           [person_100; person_100; forklift_150; forklift_150]
           site_engine
           (repeat (compound_violation person_100 forklift_150
                                       proximity_match) 4)
           [proximity_match]).
  - reflexivity.
  - reflexivity.
  - reflexivity.
Defined.

Example copies_are_all_reported :
  evaluate (repeat hardhat_detection 3) site_engine
  = (site_engine,
     inr [direct_violation hardhat_detection hardhat_match;
          direct_violation hardhat_detection site_match;
          direct_violation hardhat_detection hardhat_match;
          direct_violation hardhat_detection site_match;
          direct_violation hardhat_detection hardhat_match;
          direct_violation hardhat_detection site_match])
  /\ evaluate [person_100; person_100; forklift_150; forklift_150] site_engine
     = (site_engine,
        inr (repeat (compound_violation person_100 forklift_150
                                        proximity_match) 4)).
Proof. split; reflexivity. Qed.

(** ** Incomplete rule entries *)

Lemma lookup_app {rt : Runtime} stds1 stds2 c :
  lookup (stds1 ++ stds2) c = lookup stds1 c ++ lookup stds2 c.
Proof. unfold lookup. apply flat_map_app. Qed.

Lemma lookup_without_condition {rt : Runtime}
      c s1 std_name e1 citation fields e2 s2 :
  PyDict.get fields "condition" = None ->
  lookup (s1 ++ (std_name, JObject (e1 ++ (citation, JObject fields) :: e2))
             :: s2) c
  = lookup (s1 ++ (std_name, JObject (e1 ++ e2)) :: s2) c.
Proof.
  intros Hnone. rewrite !lookup_app. f_equal.
  unfold lookup; simpl. f_equal. unfold lookup_doc; simpl.
  rewrite !flat_map_app. f_equal. simpl.
  unfold lookup_entry at 1, applies_to, field; simpl.
  now rewrite Hnone.
Qed.

Lemma store_ok_without_entry s1 std_name e1 citation fields e2 s2 :
  store_ok (s1 ++ (std_name, JObject (e1 ++ (citation, JObject fields) :: e2))
               :: s2)
  = store_ok (s1 ++ (std_name, JObject (e1 ++ e2)) :: s2).
Proof.
  unfold store_ok. rewrite !forallb_app. simpl.
  unfold doc_ok; simpl. now rewrite !forallb_app.
Qed.

(** C10.  Lookup tolerates incomplete entries.  An entry that is an object
    without a condition is never matched, whatever the condition looked up:
    the outcome of lookup is the one on the store without that entry.  On a
    store whose documents are objects of objects, an entry whose condition
    is the one looked up, and that lacks a description or a severity, is
    matched without an error, and the match carries the empty string in
    that field. *)
Theorem lookup_tolerates_incomplete_entries {rt : Runtime}
        self c s1 std_name e1 citation fields e2 s2 :
  standards self
  = s1 ++ (std_name, JObject (e1 ++ (citation, JObject fields) :: e2)) :: s2 ->
  (PyDict.get fields "condition" = None ->
   snd (_lookup_condition c self)
   = snd (_lookup_condition c
            (mkEngine (s1 ++ (std_name, JObject (e1 ++ e2)) :: s2))))
  /\ (store_ok (standards self) = true ->
      PyDict.get fields "condition" = Some (JString c) ->
      exists ms m,
        _lookup_condition c self = (self, inr ms) /\ In m ms /\
        m_standard m = upper std_name /\ m_citation m = citation /\
        (PyDict.get fields "description" = None ->
         m_description m = JString "") /\
        (PyDict.get fields "severity" = None ->
         m_severity m = JString "")).
Proof.
  intros Hstds. split.
  - intros Hnone.
    destruct (store_ok (standards self)) eqn:Hok.
    + rewrite !_lookup_condition_ok; simpl.
      * rewrite Hstds. f_equal. now apply lookup_without_condition.
      * simpl standards.
        now rewrite <- (store_ok_without_entry s1 std_name e1 citation fields),
                    <- Hstds.
      * assumption.
    + rewrite !_lookup_condition_raises; simpl; trivial.
      simpl standards.
        now rewrite <- (store_ok_without_entry s1 std_name e1 citation fields),
                    <- Hstds.
  - intros Hok Hcond.
    exists (lookup (standards self) c),
           (rule_entry std_name citation (JObject fields)).
    split; [now apply _lookup_condition_ok|]. split.
    + apply (lookup_intro _ _ std_name
               (JObject (e1 ++ (citation, JObject fields) :: e2))).
      * rewrite Hstds. apply in_or_app. right. now left.
      * simpl. apply in_or_app. right. now left.
      * unfold field; simpl. now rewrite Hcond.
    + unfold rule_entry, field; simpl.
      repeat split; intros ->; reflexivity.
Qed.

Lemma lookup_tolerates_incomplete_entries_witness :
  snd (_lookup_condition "spill" sparse_engine)
  = snd (_lookup_condition "spill"
           (mkEngine ([] ++ ("osha", JObject ([] ++ [("1910.22", sparse_entry)]))
                         :: [])))
  /\ exists ms m,
       _lookup_condition "spill" sparse_engine = (sparse_engine, inr ms) /\
       In m ms /\
       m_standard m = upper "osha" /\ m_citation m = "1910.22" /\
       m_description m = JString "" /\ m_severity m = JString "".
Proof.
  split.
  - apply (proj1 (lookup_tolerates_incomplete_entries
                    sparse_engine "spill" [] "osha" [] "5(a)(1)"
                    [("description", JString "General duty")]
                    [("1910.22", sparse_entry)] [] eq_refl)).
    reflexivity.
  - destruct (proj2 (lookup_tolerates_incomplete_entries
                       sparse_engine "spill" [] "osha"
                       [("5(a)(1)", bare_entry)] "1910.22"
                       [("condition", JString "spill")] [] [] eq_refl)
                    eq_refl eq_refl)
      as (ms & m & Hms & Hm & Hstd & Hcit & Hdesc & Hsev).
    exists ms, m. repeat split; auto.
Defined.

(** An entry without a condition is dropped from the outcome of lookup. *)
Example bare_entry_contributes_nothing :
  _lookup_condition "spill" sparse_engine
  = (sparse_engine, inr [mkMatch "OSHA" "1910.22" (JString "") (JString "")])
  /\ snd (_lookup_condition "spill"
            (mkEngine [("osha", JObject [("1910.22", sparse_entry)])]))
     = inr [mkMatch "OSHA" "1910.22" (JString "") (JString "")].
Proof. split; reflexivity. Qed.

Example sparse_entries :
  _lookup_condition "spill" sparse_engine
  = (sparse_engine, inr [mkMatch "OSHA" "1910.22" (JString "") (JString "")])
  /\ _lookup_condition "hardhat_missing" sparse_engine
     = (sparse_engine, inr []).
Proof. split; reflexivity. Qed.

(** * Further properties of the engine *)

(** ** Every outcome of [evaluate] *)

(** X1.  [evaluate] has four outcomes and no other.  The empty list gives
    the empty list.  On a non-empty list, a document or an entry that is
    not an object makes it raise [AttributeError], before anything else;
    otherwise the first person and forklift, in the order of the nested
    loops, whose distance cannot be computed make it raise the exception
    of their squares, which is [OverflowError] or [ValueError]; otherwise
    it returns the direct violations followed by the compound ones.  The
    engine is the same after each of them, and a call that raises hands out
    no partial list. *)
Theorem evaluate_outcome {rt : Runtime} :
  (forall self dets,
      evaluate dets self
      = (self,
         match dets with
         | [] => inr []
         | _ :: _ =>
             if store_ok (standards self)
             then match pair_error dets with
                  | Some e => inl e
                  | None =>
                      inr (direct_violations (standards self) dets ++
                           compound_violations (standards self) dets)
                  end
             else inl AttributeError
         end))
  /\ (forall dets e,
        pair_error dets = Some e ->
        (e = OverflowError \/ e = ValueError) /\
        exists person forklift,
          In person dets /\ condition person = "person" /\
          In forklift dets /\ condition forklift = "forklift" /\
          _euclidean_distance (_bbox_center (bbox person))
                              (_bbox_center (bbox forklift)) = inl e)
  /\ (forall dets, pair_error dets = None <-> pairs_ok dets = true).
Proof.
  split; [|split].
  - intros self [|det dets]; [reflexivity|].
    destruct (store_ok (standards self)) eqn:Hok.
    + destruct (pair_error (det :: dets)) as [e|] eqn:Hpairs.
      * now apply evaluate_pair_raises.
      * apply evaluate_ok; [assumption|]. now apply pair_error_pairs_ok.
    + apply evaluate_raises; [assumption | discriminate].
  - intros dets e He. split; [now apply (pair_error_kind dets)|].
    unfold pair_error in He.
    apply first_error_some in He. destruct He as (person & Hp & He).
    apply first_error_some in He. destruct He as (forklift & Hf & He).
    apply filter_In in Hp, Hf. destruct Hp as [Hp Hpc], Hf as [Hf Hfc].
    apply has_condition_true in Hpc, Hfc.
    exists person, forklift. repeat (split; trivial).
    unfold distance_error, center_distance in He.
    destruct (_euclidean_distance _ _); congruence.
  - intros dets. apply pair_error_pairs_ok.
Qed.

(** ** Lists without a person or without a forklift *)

Lemma compound_violations_one_sided {rt : Runtime} stds dets :
  filter (has_condition "person") dets = [] \/
  filter (has_condition "forklift") dets = [] ->
  compound_violations stds dets = [] /\ pairs_ok dets = true.
Proof.
  unfold compound_violations, pairs_ok. intros [-> | ->].
  - split; reflexivity.
  - split; [apply flat_map_empty|]. apply forallb_forall. reflexivity.
Qed.

(** X2.  The distance is computed only when the list holds a person and a
    forklift.  On a store of objects, a list without a person, or without a
    forklift, gives its direct violations and nothing else, and no box,
    however large its coordinates, makes the call raise. *)
Theorem evaluate_without_a_pair {rt : Runtime} self dets :
  store_ok (standards self) = true ->
  filter (has_condition "person") dets = [] \/
  filter (has_condition "forklift") dets = [] ->
  evaluate dets self = (self, inr (direct_violations (standards self) dets)).
Proof.
  intros Hok Hside.
  destruct (compound_violations_one_sided (standards self) dets Hside)
    as [Hnone Hpairs].
  rewrite (evaluate_ok _ _ Hok Hpairs), Hnone. now rewrite app_nil_r.
Qed.

Lemma evaluate_without_a_pair_witness :
  evaluate [forklift_1e200; hardhat_detection; forklift_150] site_engine
  = (site_engine,
     inr (direct_violations (standards site_engine)
            [forklift_1e200; hardhat_detection; forklift_150])).
Proof.
  apply (evaluate_without_a_pair site_engine
           [forklift_1e200; hardhat_detection; forklift_150]).
  - reflexivity.
  - left. reflexivity.
Defined.

(** ** Where the content of a violation comes from *)

(** X3.  [evaluate] invents nothing.  Every violation it returns cites an
    entry of a loaded standard: its standard is the key of the document in
    upper case, its citation the key of the entry, its description and
    severity those of the entry (the empty string when missing).  The
    condition of that entry is the one of the detection shown as evidence,
    or the proximity condition when the evidence is a pair of boxes. *)
Theorem violations_cite_loaded_entries {rt : Runtime} self dets self' vs v :
  evaluate dets self = (self', inr vs) ->
  In v vs ->
  exists std_name doc citation entry,
    In (std_name, doc) (standards self) /\
    In (citation, entry) (fields_of doc) /\
    v_standard v = upper std_name /\
    v_citation v = citation /\
    v_description v = field entry "description" (JString "") /\
    v_severity v = field entry "severity" (JString "") /\
    ((exists det,
         In det dets /\
         field entry "condition" JNull = JString (condition det) /\
         v_evidence v = SingleBox (bbox det) (class_name det))
     \/
     (exists person forklift,
         In person dets /\ In forklift dets /\
         field entry "condition" JNull = JString proximity_condition /\
         v_evidence v = TwoBoxes (bbox person) (bbox forklift))).
Proof.
  intros Hev Hin. apply evaluate_returns in Hev.
  destruct Hev as (_ & -> & _ & _). apply in_app_iff in Hin.
  destruct Hin as [Hd | Hc].
  - apply direct_origin in Hd. destruct Hd as (det & m & Hdet & Hm & ->).
    apply lookup_origin in Hm.
    destruct Hm as (std_name & doc & citation & entry & H1 & H2 & H3 & ->).
    exists std_name, doc, citation, entry. repeat (split; trivial).
    left. exists det. auto.
  - apply compound_origin in Hc.
    destruct Hc as (person & forklift & m & Hp & _ & Hf & _ & _ & Hm & ->).
    apply lookup_origin in Hm.
    destruct Hm as (std_name & doc & citation & entry & H1 & H2 & H3 & ->).
    exists std_name, doc, citation, entry. repeat (split; trivial).
    right. exists person, forklift. auto.
Qed.

Lemma violations_cite_loaded_entries_witness :
  exists std_name doc citation entry,
    In (std_name, doc) (standards site_engine) /\
    In (citation, entry) (fields_of doc) /\
    v_standard (direct_violation hardhat_detection site_match)
    = upper std_name /\
    v_citation (direct_violation hardhat_detection site_match) = citation /\
    v_description (direct_violation hardhat_detection site_match)
    = field entry "description" (JString "") /\
    v_severity (direct_violation hardhat_detection site_match)
    = field entry "severity" (JString "") /\
    ((exists det,
         In det [person_100; hardhat_detection; forklift_150] /\
         field entry "condition" JNull = JString (condition det) /\
         v_evidence (direct_violation hardhat_detection site_match)
         = SingleBox (bbox det) (class_name det))
     \/
     (exists person forklift,
         In person [person_100; hardhat_detection; forklift_150] /\
         In forklift [person_100; hardhat_detection; forklift_150] /\
         field entry "condition" JNull = JString proximity_condition /\
         v_evidence (direct_violation hardhat_detection site_match)
         = TwoBoxes (bbox person) (bbox forklift))).
Proof.
  apply (violations_cite_loaded_entries
           site_engine [person_100; hardhat_detection; forklift_150]
           site_engine
           [direct_violation hardhat_detection hardhat_match;
            direct_violation hardhat_detection site_match;
            compound_violation person_100 forklift_150 proximity_match]).
  - reflexivity.
  - simpl; auto.
Defined.

(** X4.  The confidence of every violation is the confidence of a
    detection of the input, and every box shown as evidence is the box of
    a detection of the input. *)
Theorem violations_carry_input_values {rt : Runtime} self dets self' vs v :
  evaluate dets self = (self', inr vs) ->
  In v vs ->
  (exists det, In det dets /\ v_confidence v = confidence det) /\
  match v_evidence v with
  | SingleBox box cls =>
      exists det, In det dets /\ bbox det = box /\ class_name det = cls
  | TwoBoxes person_bbox forklift_bbox =>
      (exists person, In person dets /\ condition person = "person" /\
                      bbox person = person_bbox) /\
      (exists forklift, In forklift dets /\
                        condition forklift = "forklift" /\
                        bbox forklift = forklift_bbox)
  end.
Proof.
  intros Hev Hin. apply evaluate_returns in Hev.
  destruct Hev as (_ & -> & _ & _). apply in_app_iff in Hin.
  destruct Hin as [Hd | Hc].
  - apply direct_origin in Hd. destruct Hd as (det & m & Hdet & _ & ->).
    simpl. split; exists det; auto.
  - apply compound_origin in Hc.
    destruct Hc as (person & forklift & m & Hp & Hpc & Hf & Hfc & _ & _ & ->).
    simpl. split.
    + destruct (py_min_either (confidence person) (confidence forklift))
        as [-> | ->]; eauto.
    + split; eauto.
Qed.

Lemma violations_carry_input_values_witness :
  (exists det,
      In det [person_100; forklift_150] /\
      v_confidence (compound_violation person_100 forklift_150
                                       proximity_match)
      = confidence det) /\
  match v_evidence (compound_violation person_100 forklift_150
                                       proximity_match) with
  | SingleBox box cls =>
      exists det, In det [person_100; forklift_150] /\
                  bbox det = box /\ class_name det = cls
  | TwoBoxes person_bbox forklift_bbox =>
      (exists person, In person [person_100; forklift_150] /\
                      condition person = "person" /\
                      bbox person = person_bbox) /\
      (exists forklift, In forklift [person_100; forklift_150] /\
                        condition forklift = "forklift" /\
                        bbox forklift = forklift_bbox)
  end.
Proof.
  apply (violations_carry_input_values
           proximity_engine [person_100; forklift_150] proximity_engine
           [compound_violation person_100 forklift_150 proximity_match]).
  - reflexivity.
  - simpl; auto.
Defined.

(** ** More detections, reordered detections *)

Lemma direct_violations_incl {rt : Runtime} stds dets dets' :
  incl dets dets' ->
  incl (direct_violations stds dets) (direct_violations stds dets').
Proof.
  intros Hincl v Hv. apply direct_origin in Hv.
  destruct Hv as (det & m & Hdet & Hm & ->).
  apply direct_origin. exists det, m. auto.
Qed.

Lemma compound_violations_incl {rt : Runtime} stds dets dets' :
  incl dets dets' ->
  incl (compound_violations stds dets) (compound_violations stds dets').
Proof.
  intros Hincl v Hv. apply compound_origin in Hv.
  destruct Hv as (p & f & m & Hp & Hpc & Hf & Hfc & Hclose & Hm & ->).
  apply compound_origin. exists p, f, m. auto 10.
Qed.

(** X5.  A detection never suppresses a violation.  When [evaluate]
    returns on a list and on a list that holds all its detections and more,
    every violation of the first outcome is in the second. *)
Theorem more_detections_keep_violations {rt : Runtime}
        self dets dets' self1 vs self2 vs' :
  incl dets dets' ->
  evaluate dets self = (self1, inr vs) ->
  evaluate dets' self = (self2, inr vs') ->
  incl vs vs'.
Proof.
  intros Hincl Hev Hev'.
  apply evaluate_returns in Hev, Hev'.
  destruct Hev as (_ & -> & _ & _), Hev' as (_ & -> & _ & _).
  apply incl_app.
  - apply incl_appl. now apply direct_violations_incl.
  - apply incl_appr. now apply compound_violations_incl.
Qed.

Lemma more_detections_keep_violations_witness :
  incl [direct_violation hardhat_detection hardhat_match;
        direct_violation hardhat_detection site_match]
       [direct_violation hardhat_detection hardhat_match;
        direct_violation hardhat_detection site_match;
        compound_violation person_100 forklift_150 proximity_match].
Proof.
  apply (more_detections_keep_violations
           site_engine [hardhat_detection; person_100]
           [person_100; hardhat_detection; forklift_150]
           site_engine _ site_engine).
  - intros d [<- | [<- | []]]; simpl; auto.
  - reflexivity.
  - reflexivity.
Defined.

Lemma Permutation_flat_map_pointwise {A B} (f g : A -> list B) l l' :
  (forall x, Permutation (f x) (g x)) ->
  Permutation l l' ->
  Permutation (flat_map f l) (flat_map g l').
Proof.
  intros Hfg Hl. transitivity (flat_map f l').
  - now apply Permutation_flat_map.
  - clear Hl. induction l' as [|x l' IH]; simpl; [constructor|].
    now apply Permutation_app.
Qed.

Lemma Permutation_filter_same {A} (p : A -> bool) l l' :
  Permutation l l' -> Permutation (filter p l) (filter p l').
Proof.
  induction 1 as [|x l l' _ IH|x y l|l1 l2 l3 _ IH1 _ IH2]; simpl.
  - constructor.
  - destruct (p x); [now constructor | assumption].
  - destruct (p x), (p y); try reflexivity. constructor.
  - now transitivity (filter p l2).
Qed.

Lemma pairs_ok_Permutation {rt : Runtime} dets dets' :
  Permutation dets dets' -> pairs_ok dets = true -> pairs_ok dets' = true.
Proof.
  unfold pairs_ok. intros Hperm Hok.
  rewrite forallb_forall in *. intros person Hp.
  assert (Hp' : In person (filter (has_condition "person") dets)).
  { apply filter_In in Hp. apply filter_In. split; [|tauto].
    apply (Permutation_in _ (Permutation_sym Hperm)). tauto. }
  specialize (Hok person Hp'). rewrite forallb_forall in *.
  intros forklift Hf. apply Hok.
  apply filter_In in Hf. apply filter_In. split; [|tauto].
  apply (Permutation_in _ (Permutation_sym Hperm)). tauto.
Qed.

(** X6.  The order of the detections decides the order of the violations
    and nothing else.  When [evaluate] returns on a list, it returns on
    every rearrangement of the list, and the two outcomes hold the same
    violations the same number of times. *)
Theorem reordered_detections_reorder_violations {rt : Runtime}
        self dets dets' self' vs :
  Permutation dets dets' ->
  evaluate dets self = (self', inr vs) ->
  exists vs', evaluate dets' self = (self', inr vs') /\ Permutation vs vs'.
Proof.
  intros Hperm Hev. apply evaluate_returns in Hev.
  destruct Hev as (-> & -> & Hok & Hpairs).
  destruct dets as [|det dets].
  - apply Permutation_nil in Hperm. subst dets'.
    exists []. split; reflexivity.
  - assert (Hstore : store_ok (standards self) = true)
      by (apply Hok; discriminate).
    eexists. split.
    + apply evaluate_ok; [assumption|].
      now apply (pairs_ok_Permutation (det :: dets)).
    + apply Permutation_app.
      * unfold direct_violations. now apply Permutation_flat_map.
      * unfold compound_violations.
        apply Permutation_flat_map_pointwise.
        -- intros person. apply Permutation_flat_map.
           now apply Permutation_filter_same.
        -- now apply Permutation_filter_same.
Qed.

Lemma reordered_detections_reorder_violations_witness :
  exists vs',
    evaluate [forklift_150; person_100; hardhat_detection] site_engine
    = (site_engine, inr vs') /\
    Permutation [direct_violation hardhat_detection hardhat_match;
                 direct_violation hardhat_detection site_match;
                 compound_violation person_100 forklift_150 proximity_match]
                vs'.
Proof.
  apply (reordered_detections_reorder_violations
           site_engine [person_100; hardhat_detection; forklift_150]).
  - apply perm_trans with [person_100; forklift_150; hardhat_detection].
    + apply perm_skip. apply perm_swap.
    + apply perm_trans with [forklift_150; person_100; hardhat_detection].
      * apply perm_swap.
      * apply Permutation_refl.
  - reflexivity.
Defined.

(** ** A store without standards *)

Lemma no_entries_no_violations {rt : Runtime} stds dets :
  (forall c, lookup stds c = []) ->
  direct_violations stds dets = [] /\ compound_violations stds dets = [].
Proof.
  intros Hnone. split.
  - unfold direct_violations. induction dets as [|det dets IH]; simpl;
      [reflexivity|]. now rewrite Hnone, IH.
  - destruct (compound_violations stds dets) as [|v vs] eqn:Hvs;
      [reflexivity|].
    assert (Hin : In v (compound_violations stds dets))
      by (rewrite Hvs; now left).
    apply compound_origin in Hin.
    destruct Hin as (p & f & m & _ & _ & _ & _ & _ & Hm & _).
    rewrite Hnone in Hm. contradiction.
Qed.

(** X7.  A directory that is missing, cannot be listed or holds no
    document gives an engine without standards, and that engine reports
    nothing: on every detection list in which the distances can be
    computed, [evaluate] returns the empty list. *)
Theorem no_documents_no_violations {rt : Runtime} dir dets :
  glob_json dir = inr [] ->
  pairs_ok dets = true ->
  exists self,
    new_ViolationEngine dir = inr self /\
    standards self = [] /\
    evaluate dets self = (self, inr []).
Proof.
  intros Hglob Hpairs. exists (mkEngine []).
  rewrite new_ViolationEngine_outcome, Hglob. simpl.
  repeat split.
  rewrite evaluate_ok; trivial. simpl.
  destruct (no_entries_no_violations [] dets) as [-> ->]; reflexivity.
Qed.

Lemma no_documents_no_violations_witness :
  exists self,
    new_ViolationEngine Missing = inr self /\
    standards self = [] /\
    evaluate [person_100; hardhat_detection; forklift_150] self
    = (self, inr []).
Proof.
  apply (no_documents_no_violations
           Missing [person_100; hardhat_detection; forklift_150]).
  - reflexivity.
  - reflexivity.
Defined.

(** ** The store that construction builds *)

Lemma PyDict_get_set_same {V} (d : PyDict.t V) k v :
  PyDict.get (PyDict.set d k v) k = Some v.
Proof.
  induction d as [|[k' w] d IH]; simpl.
  - now rewrite String.eqb_refl.
  - destruct (String.eqb k' k) eqn:Hk; simpl; rewrite Hk; auto.
Qed.

Lemma PyDict_get_set_other {V} (d : PyDict.t V) k v k' :
  k <> k' -> PyDict.get (PyDict.set d k v) k' = PyDict.get d k'.
Proof.
  intros Hne. induction d as [|[k0 w] d IH]; simpl.
  - destruct (String.eqb k k') eqn:Hk; [|reflexivity].
    apply String.eqb_eq in Hk. contradiction.
  - destruct (String.eqb k0 k) eqn:Hk; simpl.
    + apply String.eqb_eq in Hk. subst k0.
      destruct (String.eqb k k') eqn:Hk'; [|reflexivity].
      apply String.eqb_eq in Hk'. contradiction.
    + now rewrite IH.
Qed.

Lemma PyDict_set_keys {V} (d : PyDict.t V) k v k' :
  In k' (map fst (PyDict.set d k v)) <-> k' = k \/ In k' (map fst d).
Proof.
  induction d as [|[k0 w] d IH]; simpl.
  - intuition.
  - destruct (String.eqb k0 k) eqn:Hk; simpl.
    + apply String.eqb_eq in Hk. subst k0. intuition.
    + rewrite IH. intuition.
Qed.

Lemma PyDict_set_NoDup {V} (d : PyDict.t V) k v :
  NoDup (map fst d) -> NoDup (map fst (PyDict.set d k v)).
Proof.
  induction d as [|[k0 w] d IH]; simpl; intros Hnd.
  - constructor; [intros [] | constructor].
  - inversion Hnd as [|? ? Hnotin Hnd']; subst.
    destruct (String.eqb k0 k) eqn:Hk; simpl.
    + now constructor.
    + constructor; [|now apply IH].
      rewrite PyDict_set_keys. intros [-> | Hin]; [|contradiction].
      now rewrite String.eqb_refl in Hk.
Qed.

Lemma PyDict_set_In {V} (d : PyDict.t V) k v k' v' :
  In (k', v') (PyDict.set d k v) -> (k' = k /\ v' = v) \/ In (k', v') d.
Proof.
  induction d as [|[k0 w] d IH]; simpl.
  - intros [[= <- <-] | []]. auto.
  - destruct (String.eqb k0 k) eqn:Hk; simpl.
    + apply String.eqb_eq in Hk. subst k0.
      intros [[= <- <-] | Hin]; auto.
    + intros [Heq | Hin]; auto. destruct (IH Hin); auto.
Qed.

Lemma loaded_standards_keys {rt : Runtime} files : forall d,
  first_failure files = None ->
  NoDup (map fst d) ->
  NoDup (map fst (loaded_standards files d)) /\
  (forall k, In k (map fst (loaded_standards files d)) <->
             In k (map fst d) \/
             exists f, In f files /\ k = lower (stem f)).
Proof.
  induction files as [|f files IH]; simpl; intros d Hff Hnd.
  - split; trivial. intros k. split; auto.
    intros [H | (f & [] & _)]; assumption.
  - destruct (load f) as [e | data]; [discriminate|].
    destruct (IH (PyDict.set d (lower (stem f)) data) Hff
                 (PyDict_set_NoDup _ _ _ Hnd)) as [Hnd' Hkeys].
    split; trivial. intros k. rewrite Hkeys, PyDict_set_keys. split.
    + intros [[-> | Hin] | (g & Hg & ->)]; eauto.
    + intros [Hin | (g & [<- | Hg] & ->)]; eauto.
Qed.

(** X8.  The keys of the store built by a successful construction are
    exactly the lower-cased stems of the documents of the directory, and no
    key occurs twice: documents whose names differ only in case share one
    standard. *)
Theorem constructed_store_keys {rt : Runtime} files self :
  new_ViolationEngine (Listing files) = inr self ->
  NoDup (map fst (standards self)) /\
  (forall k, In k (map fst (standards self)) <->
             exists f, In f files /\ k = lower (stem f)).
Proof.
  rewrite new_ViolationEngine_outcome. simpl glob_json. cbv beta iota.
  destruct (first_failure files) eqn:Hff; [discriminate|].
  intros [= <-]. simpl standards.
  destruct (loaded_standards_keys files [] Hff (NoDup_nil _)) as [Hnd Hkeys].
  split; trivial. intros k. rewrite Hkeys. simpl. tauto.
Qed.

Lemma constructed_store_keys_witness :
  NoDup (map fst (standards osha_engine)) /\
  (forall k, In k (map fst (standards osha_engine)) <->
             exists f, In f [mkFile "OSHA" (inr osha_document)] /\
                       k = lower (stem f)).
Proof.
  apply (constructed_store_keys [mkFile "OSHA" (inr osha_document)]).
  reflexivity.
Defined.

Lemma loaded_standards_last {rt : Runtime} pre f post doc : forall d,
  first_failure (pre ++ f :: post) = None ->
  load f = inr doc ->
  (forall g, In g post -> lower (stem g) <> lower (stem f)) ->
  PyDict.get (loaded_standards (pre ++ f :: post) d) (lower (stem f))
  = Some doc.
Proof.
  induction pre as [|g pre IH]; simpl; intros d Hff Hload Hlater.
  - rewrite Hload in *.
    assert (Hkeep : forall d',
               first_failure post = None ->
               PyDict.get d' (lower (stem f)) = Some doc ->
               PyDict.get (loaded_standards post d') (lower (stem f))
               = Some doc).
    { clear Hff. induction post as [|g post IHp]; simpl; intros d' Hff' Hget;
        trivial.
      destruct (load g) as [e | data]; [discriminate|].
      apply IHp; trivial.
      - intros g' Hg'. apply Hlater. now right.
      - rewrite PyDict_get_set_other; trivial. apply Hlater. now left. }
    apply Hkeep; trivial. apply PyDict_get_set_same.
  - destruct (load g) as [e | data]; [discriminate|]. now apply IH.
Qed.

(** X9.  What construction stores can be read back, and the last document
    wins.  After a successful construction, the store holds, under the
    lower-cased stem of a document, the content of that document, provided
    no later document of the directory has the same lower-cased stem. *)
Theorem constructed_store_holds_last_document {rt : Runtime} pre f post self :
  new_ViolationEngine (Listing (pre ++ f :: post)) = inr self ->
  (forall g, In g post -> lower (stem g) <> lower (stem f)) ->
  exists doc,
    load f = inr doc /\
    PyDict.get (standards self) (lower (stem f)) = Some doc.
Proof.
  rewrite new_ViolationEngine_outcome. simpl glob_json. cbv beta iota.
  destruct (first_failure (pre ++ f :: post)) eqn:Hff; [discriminate|].
  intros [= <-] Hlater. simpl standards.
  destruct (first_failure_none _ Hff f) as [doc Hdoc].
  { apply in_or_app. right. now left. }
  exists doc. split; trivial. now apply loaded_standards_last.
Qed.

Lemma constructed_store_holds_last_document_witness :
  exists doc,
    load (mkFile "OSHA" (inr osha_document)) = inr doc /\
    PyDict.get (standards osha_engine)
               (lower (stem (mkFile "OSHA" (inr osha_document))))
    = Some doc.
Proof.
  apply (constructed_store_holds_last_document
           [mkFile "osha" (inr flat_document)]
           (mkFile "OSHA" (inr osha_document)) []).
  - reflexivity.
  - intros g [].
Defined.

Lemma upper_lower_char c : upper_char (lower_char c) = upper_char c.
Proof. destruct c as [[] [] [] [] [] [] [] []]; reflexivity. Qed.

Lemma ascii_upper_lower s : ascii_upper (ascii_lower s) = ascii_upper s.
Proof.
  unfold ascii_upper, ascii_lower.
  induction s as [|c s IH]; simpl; [reflexivity|].
  now rewrite upper_lower_char, IH.
Qed.

Lemma lower_char_ascii c :
  (nat_of_ascii (lower_char c) <? 128)%nat = (nat_of_ascii c <? 128)%nat.
Proof. destruct c as [[] [] [] [] [] [] [] []]; reflexivity. Qed.

Lemma is_ascii_lower s : is_ascii (ascii_lower s) = is_ascii s.
Proof.
  unfold ascii_lower. induction s as [|c s IH]; [reflexivity|].
  cbn [str_map is_ascii]. now rewrite lower_char_ascii, IH.
Qed.

(** On ASCII text, upper-casing the lower case gives the upper case. *)
Lemma upper_lower {rt : Runtime} s :
  is_ascii s = true -> upper (lower s) = ascii_upper s.
Proof.
  intros Hs. rewrite (lower_ascii s Hs).
  rewrite upper_ascii by now rewrite is_ascii_lower.
  apply ascii_upper_lower.
Qed.

Lemma loaded_standards_In {rt : Runtime} files : forall d k doc,
  In (k, doc) (loaded_standards files d) ->
  In (k, doc) d \/
  exists f, In f files /\ k = lower (stem f) /\ load f = inr doc.
Proof.
  induction files as [|f files IH]; simpl; intros d k doc Hin; auto.
  destruct (load f) as [e | data] eqn:Hload; auto.
  destruct (IH _ _ _ Hin) as [Hset | (g & Hg & Hk & Hl)].
  - destruct (PyDict_set_In _ _ _ _ _ Hset) as [[-> ->] | Hd]; [|now left].
    right. exists f. auto.
  - right. exists g. auto.
Qed.

(** X10.  From the file to the citation.  After a successful construction,
    every match that lookup returns for a condition comes from an entry of
    a document of the directory that carries this condition, and its
    standard is the upper case of the lower case of the stem of that
    document.  For a file name in ASCII this is the stem in upper case,
    however the file name is cased. *)
Theorem matches_come_from_documents {rt : Runtime} files self c ms m :
  new_ViolationEngine (Listing files) = inr self ->
  snd (_lookup_condition c self) = inr ms ->
  In m ms ->
  exists f doc citation entry,
    In f files /\ load f = inr doc /\
    In (citation, entry) (fields_of doc) /\
    field entry "condition" JNull = JString c /\
    m = mkMatch (upper (lower (stem f))) citation
                (field entry "description" (JString ""))
                (field entry "severity" (JString "")) /\
    (is_ascii (stem f) = true -> m_standard m = ascii_upper (stem f)).
Proof.
  rewrite new_ViolationEngine_outcome. simpl glob_json. cbv beta iota.
  destruct (first_failure files) eqn:Hff; [discriminate|].
  intros [= <-] Hms Hm.
  apply _lookup_condition_returns in Hms. destruct Hms as [_ ->].
  apply lookup_origin in Hm.
  destruct Hm as (std_name & doc & citation & entry & Hdoc & He & Hc & ->).
  simpl in Hdoc. apply loaded_standards_In in Hdoc.
  destruct Hdoc as [[] | (f & Hf & -> & Hload)].
  exists f, doc, citation, entry. repeat (split; trivial).
  intros Hs. simpl. now apply upper_lower.
Qed.

Lemma matches_come_from_documents_witness :
  exists f doc citation entry,
    In f [mkFile "Osha" (inr osha_document)] /\ load f = inr doc /\
    In (citation, entry) (fields_of doc) /\
    field entry "condition" JNull = JString "hardhat_missing" /\
    hardhat_match
    = mkMatch (upper (lower (stem f))) citation
              (field entry "description" (JString ""))
              (field entry "severity" (JString "")) /\
    (is_ascii (stem f) = true ->
     m_standard hardhat_match = ascii_upper (stem f)).
Proof.
  apply (matches_come_from_documents
           [mkFile "Osha" (inr osha_document)] osha_engine
           "hardhat_missing" [hardhat_match]).
  - reflexivity.
  - reflexivity.
  - simpl; auto.
Defined.

(** * The labels *)

Lemma resolver_cases label :
  (In label CLASS_NAMES /\
   exists c, PyDict.get CLASS_CONDITIONS label = Some c /\
             get_or CLASS_CONDITIONS c c = c /\
             c = (if String.eqb label "ungaurded_machine"
                  then "unguarded_machine" else label))
  \/ (~ In label CLASS_NAMES /\
      PyDict.get CLASS_CONDITIONS label = None /\
      String.eqb label "ungaurded_machine" = false).
Proof.
  unfold CLASS_CONDITIONS, CLASS_NAMES. cbn [PyDict.get].
  repeat match goal with
         | |- context [String.eqb ?k label] =>
             let H := fresh "H" in
             destruct (String.eqb k label) eqn:H;
             [ apply String.eqb_eq in H; subst label; left;
               split; [simpl; tauto|];
               eexists; split; [reflexivity|]; split; reflexivity
             | apply String.eqb_neq in H ]
         end.
  right. split; [simpl; intuition congruence|]. split; [reflexivity|].
  apply String.eqb_neq. congruence.
Qed.

Lemma resolved_label label :
  get_or CLASS_CONDITIONS label label
  = (if String.eqb label "ungaurded_machine"
     then "unguarded_machine" else label).
Proof.
  unfold get_or.
  destruct (resolver_cases label)
    as [(_ & c & -> & _ & Heq) | (_ & -> & ->)]; auto.
Qed.

(** X11.  The two tables agree and the resolver changes one label.  Every
    class name of the model has an entry in the table of conditions and no
    other string has one.  Resolving a label, known or unknown, returns it
    unchanged, with one exception: the misspelt class name
    "ungaurded_machine" resolves to the condition "unguarded_machine".
    Resolving twice is resolving once. *)
Theorem resolver_changes_one_label :
  forall label,
    get_or CLASS_CONDITIONS label label
    = (if String.eqb label "ungaurded_machine"
       then "unguarded_machine" else label)
    /\ (In label CLASS_NAMES <->
        exists c, PyDict.get CLASS_CONDITIONS label = Some c)
    /\ get_or CLASS_CONDITIONS (get_or CLASS_CONDITIONS label label)
              (get_or CLASS_CONDITIONS label label)
       = get_or CLASS_CONDITIONS label label.
Proof.
  intros label. split; [apply resolved_label|].
  destruct (resolver_cases label)
    as [(Hin & c & Hget & Hc & Heq) | (Hnot & Hget & Hne)].
  - assert (Hres : get_or CLASS_CONDITIONS label label = c)
      by (unfold get_or; now rewrite Hget).
    rewrite Hres. split; [|exact Hc]. split; eauto.
  - assert (Hres : get_or CLASS_CONDITIONS label label = label)
      by (unfold get_or; now rewrite Hget).
    rewrite Hres. split; [|exact Hres].
    split; [contradiction|]. intros (c & Hc). congruence.
Qed.

(** * The detection wrapper *)

Module DetectFacts.

Section Facts.

Variable Model : Type.
Variable Pixels : Type.
Variable cv2_resize :
  Detect.image Pixels -> Z * Z -> Py.outcome (Detect.image Pixels).
Variable predict :
  Model -> Detect.image Pixels -> Py.outcome (list Detect.yolo_result).

Lemma box_step_returns (img prepared : Detect.image Pixels)
      thr result b acc out :
  Detect.box_step img prepared thr result b acc = inr out ->
  (passes thr b = false /\ out = acc) \/
  (passes thr b = true /\
   exists d, out = acc ++ [d] /\ confidence d = Detect.conf b /\
             condition_follows_label d).
Proof.
  unfold Detect.box_step, Py.and_then, passes. intros Hout.
  destruct (Py.int_of_float (Detect.cls b)) as [e | cls_id]; [discriminate|].
  destruct (Detect.conf b <? thr)%float.
  - injection Hout as <-. now left.
  - right. split; [reflexivity|].
    destruct (Detect.xyxy b) as [[[x1 y1] x2] y2].
    destruct (Py.truediv (fst _) (fst _)) as [e | h_ratio];
      [destruct ((0 <=? cls_id)%Z && _); discriminate|].
    destruct (Py.truediv (snd _) (snd _)) as [e | w_ratio];
      [destruct ((0 <=? cls_id)%Z && _); discriminate|].
    destruct ((0 <=? cls_id)%Z && _); injection Hout as <-;
      eexists; (split; [reflexivity|]); (split; [reflexivity|]);
      unfold condition_follows_label; simpl; [|now left].
    rewrite resolved_label.
    destruct (String.eqb _ "ungaurded_machine") eqn:Hlabel; [|now left].
    right. apply String.eqb_eq in Hlabel. auto.
Qed.

Lemma box_loop_returns (img prepared : Detect.image Pixels) thr result bs :
  forall acc out,
  Detect.for_each bs (Detect.box_step img prepared thr result) acc = inr out ->
  exists found,
    out = acc ++ found /\
    map confidence found = map Detect.conf (filter (passes thr) bs) /\
    Forall condition_follows_label found.
Proof.
  induction bs as [|b bs IH]; simpl; intros acc out Hout.
  - injection Hout as <-. exists []. rewrite app_nil_r. auto.
  - unfold Py.and_then in Hout.
    destruct (Detect.box_step img prepared thr result b acc) as [e | mid]
      eqn:Hstep; [discriminate|].
    destruct (IH _ _ Hout) as (found & -> & Hconf & Hlabel).
    destruct (box_step_returns _ _ _ _ _ _ _ Hstep)
      as [[Hpass ->] | (Hpass & d & -> & Hd & Hdl)]; rewrite Hpass.
    + exists found. auto.
    + exists (d :: found). rewrite <- app_assoc. simpl.
      rewrite Hd, Hconf. auto.
Qed.

Lemma result_loop_returns (img prepared : Detect.image Pixels) thr results :
  forall acc out,
  Detect.for_each results
    (fun result detections =>
       Detect.for_each (Detect.boxes result)
                       (Detect.box_step img prepared thr result) detections)
    acc = inr out ->
  exists found,
    out = acc ++ found /\
    map confidence found
    = map Detect.conf (filter (passes thr) (flat_map Detect.boxes results)) /\
    Forall condition_follows_label found.
Proof.
  induction results as [|r results IH]; simpl; intros acc out Hout.
  - injection Hout as <-. exists []. rewrite app_nil_r. auto.
  - unfold Py.and_then in Hout.
    destruct (Detect.for_each (Detect.boxes r) _ acc) as [e | mid] eqn:Hr;
      [discriminate|].
    destruct (box_loop_returns _ _ _ _ _ _ _ Hr) as (f1 & -> & Hc1 & Hl1).
    destruct (IH _ _ Hout) as (f2 & -> & Hc2 & Hl2).
    exists (f1 ++ f2). rewrite <- app_assoc. split; [reflexivity|].
    rewrite filter_app, !map_app, Hc1, Hc2. split; [reflexivity|].
    now apply Forall_app.
Qed.

(** X12.  One model: the threshold, one to one and in order.  When
    [detect_image] returns for a single model, the image was prepared and
    the model predicted, and the confidences of the detections are the
    scores of the predicted boxes that are not below the threshold, in the
    order of the boxes: one detection for each such box, none for the
    others.  A box whose score is a NaN is not below the threshold. *)
Theorem detections_are_the_boxes_above_threshold model img thr ds :
  Detect.detect_image cv2_resize predict (Detect.One model) img thr = inr ds ->
  exists prepared results,
    Detect.prepare_image cv2_resize img 1024 = inr prepared /\
    predict model prepared = inr results /\
    map confidence ds
    = map Detect.conf
          (filter (fun b => negb (Detect.conf b <? thr)%float)
                  (flat_map Detect.boxes results)) /\
    length ds <= length (flat_map Detect.boxes results).
Proof.
  simpl. unfold Py.and_then at 1.
  destruct (Detect.prepare_image cv2_resize img 1024) as [e | prepared]
    eqn:Hprepared; [discriminate|].
  unfold Py.and_then at 1.
  destruct (predict model prepared) as [e | results] eqn:Hresults;
    [discriminate|].
  intros Hloop. exists prepared, results.
  split; [reflexivity|]. split; [exact Hresults|].
  destruct (result_loop_returns _ _ _ _ _ _ Hloop) as (found & -> & Hc & _).
  split; [exact Hc|].
  simpl. rewrite <- (length_map confidence), Hc, length_map.
  apply filter_length_le.
Qed.

Lemma models_induction (P : Detect.models Model -> Prop) :
  (forall model, P (Detect.One model)) ->
  (forall sequence, Forall P sequence -> P (Detect.Several sequence)) ->
  forall m, P m.
Proof.
  intros Hone Hseveral.
  exact (fix IH (m : Detect.models Model) : P m :=
           match m with
           | Detect.One model => Hone model
           | Detect.Several sequence =>
               Hseveral sequence
                 ((fix all (l : list (Detect.models Model)) : Forall P l :=
                     match l with
                     | [] => Forall_nil P
                     | x :: l' => Forall_cons x (IH x) (all l')
                     end) sequence)
           end).
Qed.

Lemma detect_several sequence img thr :
  Detect.detect_image cv2_resize predict (Detect.Several sequence) img thr
  = Detect.extend_all
      (fun m => Detect.detect_image cv2_resize predict m img thr)
      sequence [].
Proof.
  simpl. generalize (@nil Detection).
  induction sequence as [|m sequence IH]; intros acc; simpl; [reflexivity|].
  unfold Py.and_then.
  destruct (Detect.detect_image cv2_resize predict m img thr); auto.
Qed.

Lemma extend_all_returns detect (sequence : list (Detect.models Model)) :
  forall acc out,
    Detect.extend_all detect sequence acc = inr out ->
    exists found,
      Forall2 (fun m ds => detect m = inr ds) sequence found /\
      out = acc ++ concat found.
Proof.
  induction sequence as [|m sequence IH]; simpl; intros acc out Hout.
  - injection Hout as <-. exists []. rewrite app_nil_r. auto.
  - unfold Py.and_then in Hout.
    destruct (detect m) as [e | ds] eqn:Hm; [discriminate|].
    destruct (IH _ _ Hout) as (found & Hall & ->).
    exists (ds :: found). simpl. rewrite app_assoc. auto.
Qed.

Lemma extend_all_concat detect (sequence : list (Detect.models Model)) found :
  Forall2 (fun m ds => detect m = inr ds) sequence found ->
  forall acc,
    Detect.extend_all detect sequence acc = inr (acc ++ concat found).
Proof.
  induction 1 as [|m ds sequence found Hm _ IH]; intros acc; simpl.
  - now rewrite app_nil_r.
  - unfold Py.and_then. rewrite Hm, IH. now rewrite app_assoc.
Qed.

Lemma detected_properties model img thr : forall ds,
  Detect.detect_image cv2_resize predict model img thr = inr ds ->
  Forall (fun d => (confidence d <? thr)%float = false /\
                   condition_follows_label d) ds.
Proof.
  induction model as [model | sequence IH] using models_induction;
    intros ds Hds.
  - simpl in Hds. unfold Py.and_then at 1 in Hds.
    destruct (Detect.prepare_image cv2_resize img 1024) as [e | prepared];
      [discriminate|].
    unfold Py.and_then at 1 in Hds.
    destruct (predict model prepared) as [e | results]; [discriminate|].
    destruct (result_loop_returns _ _ _ _ _ _ Hds) as (found & -> & Hc & Hl).
    simpl. apply Forall_forall. intros d Hd. split.
    + assert (Hin : In (confidence d) (map confidence found))
        by now apply in_map.
      rewrite Hc in Hin. apply in_map_iff in Hin.
      destruct Hin as (b & <- & Hb). apply filter_In in Hb.
      destruct Hb as [_ Hb]. unfold passes in Hb.
      now apply negb_true_iff in Hb.
    + rewrite Forall_forall in Hl. now apply Hl.
  - rewrite detect_several in Hds.
    apply extend_all_returns in Hds. destruct Hds as (found & Hall & ->).
    simpl. apply Forall_concat.
    induction Hall as [|m part sequence found Hm _ IHall]; constructor.
    + inversion IH; subst. auto.
    + apply IHall. now inversion IH.
Qed.

Lemma box_step_labels (img prepared : Detect.image Pixels)
      thr result b acc out cls_id :
  Detect.box_step img prepared thr result b acc = inr out ->
  Py.int_of_float (Detect.cls b) = inr cls_id ->
  passes thr b = true ->
  exists k,
    out = acc ++ [k] /\
    if (0 <=? cls_id)%Z && (cls_id <? 10)%Z
    then class_name k = nth (Z.to_nat cls_id) CLASS_NAMES "" /\
         condition k = (if String.eqb (class_name k) "ungaurded_machine"
                        then "unguarded_machine" else class_name k)
    else condition k = class_name k.
Proof.
  unfold Detect.box_step, Py.and_then, passes. intros Hout Hcls Hpass.
  rewrite Hcls in Hout. apply negb_true_iff in Hpass. rewrite Hpass in Hout.
  change (Z.of_nat (length CLASS_NAMES)) with 10%Z in Hout.
  destruct (Detect.xyxy b) as [[[x1 y1] x2] y2].
  destruct (Py.truediv (fst _) (fst _)) as [e | h_ratio];
    [destruct ((0 <=? cls_id)%Z && _); discriminate|].
  destruct (Py.truediv (snd _) (snd _)) as [e | w_ratio];
    [destruct ((0 <=? cls_id)%Z && _); discriminate|].
  destruct ((0 <=? cls_id)%Z && (cls_id <? 10)%Z); injection Hout as <-;
    eexists; (split; [reflexivity|]); simpl.
  - split; [reflexivity|]. apply resolved_label.
  - reflexivity.
Qed.

(** X13.  Whatever the models, a single one or sequences of any nesting,
    no detection that [detect_image] returns has a confidence below the
    threshold, and the condition of each is its class name or, for the
    class name "ungaurded_machine" only, "unguarded_machine".  Which of
    the two is decided box by box.  A box whose class id is in
    [CLASS_NAMES] gets its name from that table and the resolved name as
    condition: the table's "ungaurded_machine" always comes with
    "unguarded_machine".  A box whose class id is outside the table gets
    its name as condition, also when [result.names] calls it
    "ungaurded_machine". *)
Theorem detections_pass_threshold_and_follow_labels model img thr ds d :
  Detect.detect_image cv2_resize predict model img thr = inr ds ->
  In d ds ->
  (confidence d <? thr)%float = false /\
  (condition d = class_name d \/
   (class_name d = "ungaurded_machine" /\
    condition d = "unguarded_machine")) /\
  (forall prepared result b acc out cls_id,
      Detect.box_step img prepared thr result b acc = inr out ->
      Py.int_of_float (Detect.cls b) = inr cls_id ->
      (Detect.conf b <? thr)%float = false ->
      exists k,
        out = acc ++ [k] /\
        if (0 <=? cls_id)%Z && (cls_id <? 10)%Z
        then class_name k = nth (Z.to_nat cls_id) CLASS_NAMES "" /\
             condition k = (if String.eqb (class_name k) "ungaurded_machine"
                            then "unguarded_machine" else class_name k)
        else condition k = class_name k).
Proof.
  intros Hds Hd.
  pose proof (detected_properties model img thr ds Hds) as Hall.
  rewrite Forall_forall in Hall. destruct (Hall d Hd) as [Hconf Hlabel].
  split; [exact Hconf|]. split; [exact Hlabel|].
  intros prepared result b acc out cls_id Hout Hcls Hpass.
  apply (box_step_labels img prepared thr result b); trivial.
  unfold passes. now rewrite Hpass.
Qed.

(** X14.  A sequence of models gives the detections of its models one
    after the other.  When every model of a sequence returns, the sequence
    returns the concatenation of their lists, in the order of the sequence;
    when a model raises after models that returned, the sequence raises
    the same exception, whatever follows.  A sequence of one model gives
    what the model gives. *)
Theorem sequence_concatenates sequence found img thr :
  Forall2 (fun m ds =>
             Detect.detect_image cv2_resize predict m img thr = inr ds)
          sequence found ->
  Detect.detect_image cv2_resize predict (Detect.Several sequence) img thr
  = inr (concat found)
  /\ (forall m e rest,
         Detect.detect_image cv2_resize predict m img thr = inl e ->
         Detect.detect_image cv2_resize predict
           (Detect.Several (sequence ++ m :: rest)) img thr = inl e)
  /\ (forall m,
         Detect.detect_image cv2_resize predict (Detect.Several [m]) img thr
         = Detect.detect_image cv2_resize predict m img thr).
Proof.
  intros Hall. split; [|split].
  - rewrite detect_several.
    now rewrite (extend_all_concat _ _ _ Hall []).
  - intros m e rest Hm. rewrite detect_several.
    generalize (@nil Detection).
    induction Hall as [|m' ds sequence found Hm' _ IH]; intros acc; simpl.
    + unfold Py.and_then. now rewrite Hm.
    + unfold Py.and_then at 1. rewrite Hm'. apply IH.
  - intros m. rewrite detect_several. simpl. unfold Py.and_then.
    now destruct (Detect.detect_image cv2_resize predict m img thr).
Qed.

(** X19.  From the frame to the report, as the upload and capture routes
    chain the two calls: when [detect_image] returns detections and
    [evaluate] returns violations for them, no violation has a confidence
    below the detection threshold, be it a direct one or the minimum of a
    pair. *)
Theorem reported_confidences_pass_the_threshold {rt : Runtime}
        model img thr ds self self' vs v :
  Detect.detect_image cv2_resize predict model img thr = inr ds ->
  evaluate ds self = (self', inr vs) ->
  In v vs ->
  (v_confidence v <? thr)%float = false.
Proof.
  intros Hds Hev Hv.
  assert (Hpass : forall d, In d ds -> (confidence d <? thr)%float = false).
  { pose proof (detected_properties model img thr ds Hds) as Hall.
    rewrite Forall_forall in Hall. intros d Hd. now apply Hall. }
  apply evaluate_returns in Hev. destruct Hev as (_ & -> & _ & _).
  apply in_app_iff in Hv. destruct Hv as [Hd | Hc].
  - apply direct_origin in Hd. destruct Hd as (det & m & Hdet & _ & ->).
    simpl. now apply Hpass.
  - apply compound_origin in Hc.
    destruct Hc as (p & f & m & Hp & _ & Hf & _ & _ & _ & ->). simpl.
    destruct (py_min_either (confidence p) (confidence f)) as [-> | ->];
      now apply Hpass.
Qed.

(** ** The size of the prepared image *)

Lemma lengths_In first count z :
  (Z.of_nat first <= z < Z.of_nat first + Z.of_nat count)%Z ->
  In z (lengths first count).
Proof.
  intros Hz. unfold lengths. apply in_map_iff.
  exists (Z.to_nat z). split; [lia|]. apply in_seq. lia.
Qed.

Lemma sides_up_to_1024_keep_size :
  forallb keeps_size (lengths 1 1024) = true.
Proof. vm_compute. reflexivity. Qed.

Lemma sides_up_to_8192_shrink_to_limit :
  forallb shrinks_to_limit (lengths 1025 7168) = true.
Proof. vm_compute. reflexivity. Qed.

Lemma prepare_image_by_sides (img : Detect.image Pixels) h w scale :
  Detect.shape img = (h, w) ->
  scale_of 1024 (Z.max h w) = inr scale ->
  Detect.prepare_image cv2_resize img 1024
  = Py.and_then (scaled_side scale w) (fun new_w =>
    Py.and_then (scaled_side scale h) (fun new_h =>
    cv2_resize img (new_w, new_h))).
Proof.
  unfold Detect.prepare_image, scale_of, scaled_side, Py.and_then.
  intros ->. destruct (Py.truediv 1024 (Z.max h w)); [discriminate|].
  intros [= <-].
  destruct (Py.float_of_int w) as [e | wf]; [reflexivity|].
  destruct (Py.int_of_float (wf * _)) as [e | new_w]; [reflexivity|].
  destruct (Py.float_of_int h) as [e | hf]; reflexivity.
Qed.

(** X15.  [prepare_image] never enlarges.  An image whose sides are both
    between 1 and 1024 is handed to [cv2.resize] with its own width and
    height as target size. *)
Theorem small_images_keep_their_size (img : Detect.image Pixels) h w :
  Detect.shape img = (h, w) ->
  (1 <= h <= 1024)%Z ->
  (1 <= w <= 1024)%Z ->
  Detect.prepare_image cv2_resize img 1024 = cv2_resize img (w, h).
Proof.
  intros Hshape Hh Hw.
  pose proof sides_up_to_1024_keep_size as Hall.
  rewrite forallb_forall in Hall.
  assert (Hside : forall z, (1 <= z <= 1024)%Z ->
                            scale_of 1024 z = inr 1%float /\
                            scaled_side 1 z = inr z).
  { intros z Hz. specialize (Hall z (lengths_In 1 1024 z ltac:(lia))).
    unfold keeps_size in Hall.
    destruct (scale_of 1024 z) as [e | scale]; [discriminate|].
    destruct (scaled_side 1 z) as [e | n]; [discriminate|].
    apply andb_prop in Hall. destruct Hall as [Hscale Hn].
    apply FloatAxioms.Leibniz.eqb_spec in Hscale. apply Z.eqb_eq in Hn.
    now subst. }
  rewrite (prepare_image_by_sides img h w 1%float Hshape).
  - destruct (Hside h Hh) as [_ ->], (Hside w Hw) as [_ ->]. reflexivity.
  - apply Hside. lia.
Qed.

(** X16.  [prepare_image] shrinks to the limit or one pixel less.  For an
    image whose longer side is between 1025 and 8192, the scale can be
    computed, the sides are scaled in the order width, height, and the
    target length of the longer side is 1024 or 1023. *)
Theorem large_images_shrink_to_the_limit (img : Detect.image Pixels) h w :
  Detect.shape img = (h, w) ->
  (1025 <= Z.max h w <= 8192)%Z ->
  exists scale,
    scale_of 1024 (Z.max h w) = inr scale /\
    (scaled_side scale (Z.max h w) = inr 1023%Z \/
     scaled_side scale (Z.max h w) = inr 1024%Z) /\
    Detect.prepare_image cv2_resize img 1024
    = Py.and_then (scaled_side scale w) (fun new_w =>
      Py.and_then (scaled_side scale h) (fun new_h =>
      cv2_resize img (new_w, new_h))).
Proof.
  intros Hshape Hmax.
  pose proof sides_up_to_8192_shrink_to_limit as Hall.
  rewrite forallb_forall in Hall.
  assert (Hin : In (Z.max h w) (lengths 1025 7168)).
  { apply lengths_In.
    change (Z.of_nat 1025) with 1025%Z. change (Z.of_nat 7168) with 7168%Z.
    lia. }
  specialize (Hall (Z.max h w) Hin).
  unfold shrinks_to_limit in Hall.
  destruct (scale_of 1024 (Z.max h w)) as [e | scale] eqn:Hscale;
    [discriminate|].
  exists scale. split; [reflexivity|]. split.
  - destruct (scaled_side scale (Z.max h w)) as [e | n]; [discriminate|].
    apply orb_prop in Hall.
    destruct Hall as [Hn | Hn]; apply Z.eqb_eq in Hn; subst; auto.
  - now apply prepare_image_by_sides.
Qed.

End Facts.

(** ** The cache of loaded models *)

Section Cache.

Variable Model : Type.

Lemma load_model_cases (fs : Detect.filesystem Model) path cache key :
  Detect.resolve fs path = inr key ->
  match PyDict.get cache key with
  | Some model => Detect.load_model fs path cache = (cache, inr model)
  | None =>
      if Detect.path_exists fs key
      then match Detect.YOLO fs key with
           | inl e => Detect.load_model fs path cache = (cache, inl e)
           | inr model =>
               Detect.load_model fs path cache
               = (PyDict.set cache key model, inr model)
           end
      else Detect.load_model fs path cache
           = (cache, inl Py.FileNotFoundError)
  end.
Proof.
  unfold Detect.load_model. intros ->. cbv zeta.
  destruct (PyDict.get cache key) as [model|] eqn:Hget.
  - now rewrite Hget.
  - destruct (Detect.path_exists fs key); simpl; [|reflexivity].
    destruct (Detect.YOLO fs key) as [e | model]; [reflexivity|].
    now rewrite PyDict_get_set_same.
Qed.

(** X17.  A model is loaded once.  After [load_model] returned a model for
    a path, every later call for a path that resolves to the same file
    returns that model and leaves the cache as it is, whatever has become
    of the file: neither its existence nor its content is looked at
    again. *)
Theorem cached_model_is_reused
        (fs fs' : Detect.filesystem Model) path path' cache cache' model :
  Detect.load_model fs path cache = (cache', inr model) ->
  Detect.resolve fs' path' = Detect.resolve fs path ->
  Detect.load_model fs' path' cache' = (cache', inr model).
Proof.
  intros Hfirst Hsame.
  destruct (Detect.resolve fs path) as [e | key] eqn:Hkey.
  { unfold Detect.load_model in Hfirst. rewrite Hkey in Hfirst.
    discriminate. }
  assert (Hcached : PyDict.get cache' key = Some model).
  { pose proof (load_model_cases fs path cache key Hkey) as Hcases.
    destruct (PyDict.get cache key) as [m|] eqn:Hget.
    - rewrite Hcases in Hfirst. injection Hfirst as <- <-. exact Hget.
    - destruct (Detect.path_exists fs key).
      + destruct (Detect.YOLO fs key) as [e | m];
          rewrite Hcases in Hfirst; [discriminate|].
        injection Hfirst as <- <-. apply PyDict_get_set_same.
      + rewrite Hcases in Hfirst. discriminate. }
  pose proof (load_model_cases fs' path' cache' key Hsame) as Hcases.
  now rewrite Hcached in Hcases.
Qed.

(** X18.  [load_model] only adds to the cache.  Whatever the outcome of a
    call, every model that was cached is still cached under its path.  A
    call that raises leaves the cache as it was: it raises the exception
    of [Path.resolve], or [FileNotFoundError] when the resolved path is not
    cached and does not exist, or the exception of the [YOLO] constructor
    when the file exists and cannot be loaded.  A call that returns has
    the model cached under the resolved path. *)
Theorem load_model_only_adds
        (fs : Detect.filesystem Model) path cache cache' outcome :
  Detect.load_model fs path cache = (cache', outcome) ->
  (forall key model,
      PyDict.get cache key = Some model ->
      PyDict.get cache' key = Some model) /\
  match outcome with
  | inl e =>
      cache' = cache /\
      (Detect.resolve fs path = inl e \/
       exists key,
         Detect.resolve fs path = inr key /\
         PyDict.get cache key = None /\
         ((Detect.path_exists fs key = false /\ e = Py.FileNotFoundError) \/
          (Detect.path_exists fs key = true /\ Detect.YOLO fs key = inl e)))
  | inr model =>
      exists key,
        Detect.resolve fs path = inr key /\
        PyDict.get cache' key = Some model
  end.
Proof.
  intros Hload.
  destruct (Detect.resolve fs path) as [e | key] eqn:Hkey.
  { unfold Detect.load_model in Hload. rewrite Hkey in Hload.
    injection Hload as <- <-. auto. }
  pose proof (load_model_cases fs path cache key Hkey) as Hcases.
  destruct (PyDict.get cache key) as [m|] eqn:Hget.
  - rewrite Hcases in Hload. injection Hload as <- <-. eauto.
  - destruct (Detect.path_exists fs key) eqn:Hexists.
    + destruct (Detect.YOLO fs key) as [e | m] eqn:Hyolo;
        rewrite Hcases in Hload; injection Hload as <- <-.
      * split; [auto|]. split; [reflexivity|]. right. exists key. auto 6.
      * split; [|exists key; split; [reflexivity|apply PyDict_get_set_same]].
        intros k model Hk. rewrite PyDict_get_set_other; trivial.
        intros <-. congruence.
    + rewrite Hcases in Hload. injection Hload as <- <-.
      split; [auto|]. split; [reflexivity|]. right. exists key. auto 6.
Qed.

End Cache.

End DetectFacts.

Example the_site_model_on_a_720p_frame :
  Detect.detect_image shape_resize fixed_predict (Detect.One site_model)
                      frame_720p 0.25
  = inr site_detections
  /\ Detect.prepare_image shape_resize frame_720p 1024
     = inr (Detect.mkImage (576, 1024)%Z tt)
  /\ Detect.prepare_image shape_resize frame_1122 1024
     = inr (Detect.mkImage (1023, 730)%Z tt).
Proof. repeat split; reflexivity. Qed.

Lemma detections_are_the_boxes_above_threshold_witness :
  exists prepared results,
    Detect.prepare_image shape_resize frame_720p 1024 = inr prepared /\
    fixed_predict site_model prepared = inr results /\
    map confidence site_detections
    = map Detect.conf
          (filter (fun b => negb (Detect.conf b <? 0.25)%float)
                  (flat_map Detect.boxes results)) /\
    length site_detections <= length (flat_map Detect.boxes results).
Proof.
  apply (DetectFacts.detections_are_the_boxes_above_threshold
           fixed_model unit shape_resize fixed_predict site_model
           frame_720p 0.25).
  reflexivity.
Defined.

Lemma detections_pass_threshold_and_follow_labels_witness :
  (confidence (mkDetection "ungaurded_machine" "unguarded_machine" 0.5
                           (500, 375, 750, 625)%float) <? 0.25)%float = false
  /\ (condition (mkDetection "ungaurded_machine" "unguarded_machine" 0.5
                             (500, 375, 750, 625)%float)
      = class_name (mkDetection "ungaurded_machine" "unguarded_machine" 0.5
                                (500, 375, 750, 625)%float)
      \/ (class_name (mkDetection "ungaurded_machine" "unguarded_machine" 0.5
                                  (500, 375, 750, 625)%float)
          = "ungaurded_machine" /\
          condition (mkDetection "ungaurded_machine" "unguarded_machine" 0.5
                                 (500, 375, 750, 625)%float)
          = "unguarded_machine"))
  /\ (forall prepared result b acc out cls_id,
        Detect.box_step frame_720p prepared 0.25%float result b acc
        = inr out ->
        Py.int_of_float (Detect.cls b) = inr cls_id ->
        (Detect.conf b <? 0.25)%float = false ->
        exists k,
          out = acc ++ [k] /\
          if (0 <=? cls_id)%Z && (cls_id <? 10)%Z
          then class_name k = nth (Z.to_nat cls_id) CLASS_NAMES "" /\
               condition k
               = (if String.eqb (class_name k) "ungaurded_machine"
                  then "unguarded_machine" else class_name k)
          else condition k = class_name k).
Proof.
  apply (DetectFacts.detections_pass_threshold_and_follow_labels
           fixed_model unit shape_resize fixed_predict
           (Detect.Several [Detect.One forklift_model;
                            Detect.Several [Detect.One site_model]])
           frame_720p 0.25
           (mkDetection "forklift" "forklift" 0.8
                        (187.5, 125, 312.5, 375)%float :: site_detections)).
  - reflexivity.
  - simpl; auto.
Defined.

Example the_misspelt_name_with_both_conditions :
  Detect.detect_image shape_resize fixed_predict
    (Detect.Several [Detect.One site_model; Detect.One foreign_model])
    frame_720p 0.25
  = inr (site_detections ++
         [mkDetection "ungaurded_machine" "ungaurded_machine" 0.5
                      (500, 375, 750, 625)%float]).
Proof. reflexivity. Qed.

Lemma sequence_concatenates_witness :
  Detect.detect_image shape_resize fixed_predict
    (Detect.Several [Detect.One forklift_model; Detect.One site_model])
    frame_720p 0.25
  = inr (concat [[mkDetection "forklift" "forklift" 0.8
                              (187.5, 125, 312.5, 375)%float];
                 site_detections])
  /\ (forall m e rest,
         Detect.detect_image shape_resize fixed_predict m frame_720p 0.25
         = inl e ->
         Detect.detect_image shape_resize fixed_predict
           (Detect.Several
              ([Detect.One forklift_model; Detect.One site_model]
                 ++ m :: rest)) frame_720p 0.25 = inl e)
  /\ (forall m,
         Detect.detect_image shape_resize fixed_predict (Detect.Several [m])
                             frame_720p 0.25
         = Detect.detect_image shape_resize fixed_predict m frame_720p 0.25).
Proof.
  apply (DetectFacts.sequence_concatenates
           fixed_model unit shape_resize fixed_predict).
  repeat constructor.
Defined.

Lemma small_images_keep_their_size_witness :
  Detect.prepare_image shape_resize (Detect.mkImage (480, 640)%Z tt) 1024
  = shape_resize (Detect.mkImage (480, 640)%Z tt) (640, 480)%Z.
Proof.
  apply (DetectFacts.small_images_keep_their_size
           unit shape_resize (Detect.mkImage (480, 640)%Z tt)).
  - reflexivity.
  - lia.
  - lia.
Defined.

Lemma large_images_shrink_to_the_limit_witness :
  exists scale,
    scale_of 1024 (Z.max 1122 800) = inr scale /\
    (scaled_side scale (Z.max 1122 800) = inr 1023%Z \/
     scaled_side scale (Z.max 1122 800) = inr 1024%Z) /\
    Detect.prepare_image shape_resize frame_1122 1024
    = Py.and_then (scaled_side scale 800) (fun new_w =>
      Py.and_then (scaled_side scale 1122) (fun new_h =>
      shape_resize frame_1122 (new_w, new_h))).
Proof.
  apply (DetectFacts.large_images_shrink_to_the_limit
           unit shape_resize frame_1122).
  - reflexivity.
  - simpl. lia.
Defined.

Lemma cached_model_is_reused_witness :
  Detect.load_model empty_disk "models/site.pt"
                    [("/srv/models/site.pt", site_model)]
  = ([("/srv/models/site.pt", site_model)], inr site_model).
Proof.
  apply (DetectFacts.cached_model_is_reused
           fixed_model disk empty_disk "models/site.pt" "models/site.pt" []).
  - reflexivity.
  - reflexivity.
Defined.

Lemma load_model_only_adds_witness :
  (forall key model,
      PyDict.get [("/srv/models/site.pt", site_model)] key = Some model ->
      PyDict.get [("/srv/models/site.pt", site_model);
                  ("/srv/models/ppe.pt", forklift_model)] key = Some model) /\
  exists key,
    Detect.resolve
      (Detect.mkFilesystem (fun path => inr ("/srv/" ++ path)%string)
                           (fun _ => true) (fun _ => inr forklift_model))
      "models/ppe.pt" = inr key /\
    PyDict.get [("/srv/models/site.pt", site_model);
                ("/srv/models/ppe.pt", forklift_model)] key
    = Some forklift_model.
Proof.
  apply (DetectFacts.load_model_only_adds
           fixed_model
           (Detect.mkFilesystem (fun path => inr ("/srv/" ++ path)%string)
                                (fun _ => true) (fun _ => inr forklift_model))
           "models/ppe.pt"
           [("/srv/models/site.pt", site_model)]
           [("/srv/models/site.pt", site_model);
            ("/srv/models/ppe.pt", forklift_model)]
           (inr forklift_model)).
  reflexivity.
Defined.

Example a_missing_weights_file :
  Detect.load_model empty_disk "models/ppe.pt"
                    [("/srv/models/site.pt", site_model)]
  = ([("/srv/models/site.pt", site_model)], inl Py.FileNotFoundError).
Proof. reflexivity. Qed.

Lemma reported_confidences_pass_the_threshold_witness :
  (v_confidence (with_match proximity_match 0.8
                   (TwoBoxes (125, 125, 250, 375)%float
                             (187.5, 125, 312.5, 375)%float))
   <? 0.25)%float = false.
Proof.
  apply (DetectFacts.reported_confidences_pass_the_threshold
           fixed_model unit shape_resize fixed_predict
           (Detect.Several [Detect.One forklift_model; Detect.One site_model])
           frame_720p 0.25
           (mkDetection "forklift" "forklift" 0.8
                        (187.5, 125, 312.5, 375)%float :: site_detections)
           proximity_engine proximity_engine
           [with_match proximity_match 0.8
              (TwoBoxes (125, 125, 250, 375)%float
                        (187.5, 125, 312.5, 375)%float)]).
  - reflexivity.
  - reflexivity.
  - simpl; auto.
Defined.

(** * The report *)

Section ReportFacts.

Variable repr : json -> string.

Lemma lines_of_the_report violations : forall lines,
  fold_left
    (fun lines v =>
       lines ++
       [(v_standard v ++ " " ++ v_citation v ++ ": "
         ++ str_of_json repr (v_description v) ++ " (confidence "
         ++ Py.format_2f (v_confidence v) ++ ")")%string])
    violations lines
  = lines ++ map (report_line repr) violations.
Proof.
  induction violations as [|v vs IH]; intros lines; simpl.
  - now rewrite app_nil_r.
  - rewrite IH. now rewrite <- app_assoc.
Qed.

Lemma summarise_nonempty v vs :
  summarise_violations repr (v :: vs)
  = Py.join newline (map (report_line repr) (v :: vs)).
Proof.
  unfold summarise_violations. cbn [truthy negb].
  now rewrite (lines_of_the_report (v :: vs) []).
Qed.

Lemma last_char_append a b :
  b <> EmptyString -> last_char (a ++ b) = last_char b.
Proof.
  intros Hb. induction a as [|c a IH]; simpl; [reflexivity|].
  rewrite <- IH. destruct (a ++ b)%string eqn:Hab; [|reflexivity].
  destruct a; simpl in Hab; [contradiction | discriminate].
Qed.

Lemma report_line_ends v : last_char (report_line repr v) = Some ")"%char.
Proof.
  unfold report_line.
  repeat (rewrite last_char_append;
          [|try discriminate;
            repeat match goal with
                   | |- (?x ++ _)%string <> EmptyString =>
                       destruct x; simpl; try discriminate
                   end]).
  reflexivity.
Qed.

Lemma join_ends lines : forall line,
  last_char line <> None ->
  last_char (Py.join newline (lines ++ [line])) = last_char line.
Proof.
  induction lines as [|l lines IH]; intros line Hline; simpl.
  - reflexivity.
  - destruct (lines ++ [line]) as [|l' rest] eqn:Hrest.
    + destruct lines; discriminate.
    + rewrite <- Hrest. specialize (IH line Hline).
      rewrite last_char_append by (unfold newline; simpl; discriminate).
      unfold newline. simpl.
      unfold newline in IH.
      destruct (Py.join (String (ascii_of_nat 10) "") (lines ++ [line]))
        eqn:Hjoin; [|exact IH].
      simpl in IH. congruence.
Qed.

(** X20.  The report tells "nothing found" from "something found".  The
    summary is the sentence "No potential violations detected." if and
    only if the list of violations is empty: a summary of violations ends
    with the closing bracket of its last line, whatever the texts of the
    rule entries. *)
Theorem summary_is_empty_message_iff_no_violation :
  forall violations,
    summarise_violations repr violations = "No potential violations detected."
    <-> violations = [].
Proof.
  intros violations. split; [|intros ->; reflexivity].
  destruct violations as [|v vs]; [reflexivity|]. intros Hsum. exfalso.
  rewrite summarise_nonempty in Hsum.
  assert (Hlast : exists front final, v :: vs = front ++ [final]).
  { destruct (exists_last (l := v :: vs)) as (front & final & Heq);
      [discriminate | eauto]. }
  destruct Hlast as (front & final & Heq). rewrite Heq, map_app in Hsum.
  simpl map in Hsum.
  assert (Hend : last_char (Py.join newline
                              (map (report_line repr) front
                                   ++ [report_line repr final]))
                 = Some ")"%char).
  { rewrite join_ends; rewrite report_line_ends; [reflexivity|discriminate]. }
  rewrite Hsum in Hend. discriminate Hend.
Qed.

Lemma string_append_assoc (a b c : string) :
  ((a ++ b) ++ c = a ++ (b ++ c))%string.
Proof. induction a as [|x a IH]; simpl; [reflexivity|]. now rewrite IH. Qed.

Lemma join_app sep xs ys :
  xs <> [] -> ys <> [] ->
  Py.join sep (xs ++ ys) = (Py.join sep xs ++ sep ++ Py.join sep ys)%string.
Proof.
  intros Hxs Hys. induction xs as [|x xs IH]; [contradiction|].
  destruct xs as [|x' xs].
  - simpl. destruct ys; [contradiction | reflexivity].
  - change (Py.join sep ((x :: x' :: xs) ++ ys))
      with (x ++ sep ++ Py.join sep ((x' :: xs) ++ ys))%string.
    rewrite IH by discriminate.
    change (Py.join sep (x :: x' :: xs))
      with (x ++ sep ++ Py.join sep (x' :: xs))%string.
    now rewrite !string_append_assoc.
Qed.

(** X21.  One line for each violation, in their order: the summary of two
    non-empty lists of violations, one after the other, is the summary of
    the first, a line break, and the summary of the second. *)
Theorem summary_of_two_lists first second :
  first <> [] -> second <> [] ->
  summarise_violations repr (first ++ second)
  = (summarise_violations repr first ++ newline
     ++ summarise_violations repr second)%string.
Proof.
  intros Hfirst Hsecond.
  destruct first as [|v vs]; [contradiction|].
  destruct second as [|w ws]; [contradiction|].
  change ((v :: vs) ++ w :: ws) with (v :: (vs ++ w :: ws)).
  rewrite !summarise_nonempty.
  change (v :: vs ++ w :: ws) with ((v :: vs) ++ w :: ws).
  rewrite map_app. apply join_app; discriminate.
Qed.

End ReportFacts.

Lemma summary_of_two_lists_witness :
  summarise_violations (fun _ => "?")
    ([direct_violation hardhat_detection hardhat_match]
       ++ [compound_violation person_100 forklift_150 proximity_match])
  = (summarise_violations (fun _ => "?")
       [direct_violation hardhat_detection hardhat_match]
     ++ newline
     ++ summarise_violations (fun _ => "?")
          [compound_violation person_100 forklift_150 proximity_match])%string.
Proof.
  apply (summary_of_two_lists (fun _ => "?")); discriminate.
Defined.

Example the_report_of_the_scenarios :
  summarise_violations (fun _ => "?")
    [direct_violation hardhat_detection hardhat_match;
     compound_violation person_100 forklift_150 proximity_match]
  = ("OSHA 1926.100: Head protection required (confidence 0.91)" ++ newline
     ++ "OSHA 1910.178: Pedestrian close to a powered truck (confidence 0.60)")
      %string
  /\ summarise_violations (fun _ => "?") []
     = "No potential violations detected.".
Proof. split; reflexivity. Qed.

(** * Boxes with a NaN *)

Lemma SFcompare_same v : v <> S754_nan -> SFcompare v v = Some Eq.
Proof.
  destruct v as [s|s| |s m e]; simpl; try congruence; intros _.
  - now destruct s.
  - destruct s; rewrite Z.compare_refl;
      change (Pos.compare_cont Eq m m) with (Pos.compare m m);
      now rewrite Pos.compare_refl.
Qed.

Lemma is_nan_Prim2SF x : PrimFloat.is_nan x = true -> Prim2SF x = S754_nan.
Proof.
  unfold PrimFloat.is_nan. intros H. apply negb_true_iff in H.
  rewrite FloatAxioms.eqb_spec in H. unfold SFeqb in H.
  destruct (Prim2SF x) as [s|s| |s m e] eqn:Hx; trivial;
    rewrite SFcompare_same in H; discriminate.
Qed.

Lemma nan_add_l x y : Prim2SF x = S754_nan -> Prim2SF (x + y) = S754_nan.
Proof. intros H. now rewrite add_spec, H. Qed.

Lemma nan_add_r x y : Prim2SF y = S754_nan -> Prim2SF (x + y) = S754_nan.
Proof. intros H. rewrite add_spec, H. now destruct (Prim2SF x). Qed.

Lemma nan_sub_l x y : Prim2SF x = S754_nan -> Prim2SF (x - y) = S754_nan.
Proof. intros H. now rewrite sub_spec, H. Qed.

Lemma nan_sub_r x y : Prim2SF y = S754_nan -> Prim2SF (x - y) = S754_nan.
Proof. intros H. rewrite sub_spec, H. now destruct (Prim2SF x). Qed.

Lemma nan_div_l x y : Prim2SF x = S754_nan -> Prim2SF (x / y) = S754_nan.
Proof. intros H. now rewrite div_spec, H. Qed.

Lemma Prim2SF_is_nan x : Prim2SF x = S754_nan -> PrimFloat.is_nan x = true.
Proof.
  intros H. unfold PrimFloat.is_nan. now rewrite FloatAxioms.eqb_spec, H.
Qed.

Lemma nan_sqrt x : Prim2SF x = S754_nan -> Prim2SF (PrimFloat.sqrt x) = S754_nan.
Proof. intros H. now rewrite sqrt_spec, H. Qed.

Lemma nan_not_below x y : Prim2SF x = S754_nan -> (x <? y)%float = false.
Proof. intros H. now rewrite FloatAxioms.ltb_spec, H. Qed.

Lemma pow2_nan {rt : Runtime} x :
  Prim2SF x = S754_nan ->
  exists r, pow2 x = inr r /\ Prim2SF r = S754_nan.
Proof.
  intros H. unfold pow2. rewrite (Prim2SF_is_nan _ H). now exists x.
Qed.

Lemma distance_of_a_nan {rt : Runtime} p1 p2 :
  Prim2SF (fst p1) = S754_nan \/ Prim2SF (snd p1) = S754_nan \/
  Prim2SF (fst p2) = S754_nan \/ Prim2SF (snd p2) = S754_nan ->
  match _euclidean_distance p1 p2 with
  | inr distance => Prim2SF distance = S754_nan
  | inl _ => True
  end.
Proof.
  intros Hnan. unfold _euclidean_distance, and_then.
  assert (Hd : Prim2SF (fst p1 - fst p2) = S754_nan \/
               Prim2SF (snd p1 - snd p2) = S754_nan).
  { destruct Hnan as [H | [H | [H | H]]];
      auto using nan_sub_l, nan_sub_r. }
  destruct Hd as [Hx | Hy].
  - destruct (pow2_nan _ Hx) as (dx2 & -> & Hdx2).
    destruct (pow2 (snd p1 - snd p2)) as [e | dy2]; trivial.
    apply nan_sqrt. now apply nan_add_l.
  - destruct (pow2 (fst p1 - fst p2)) as [e | dx2]; trivial.
    destruct (pow2_nan _ Hy) as (dy2 & -> & Hdy2).
    apply nan_sqrt. now apply nan_add_r.
Qed.

Lemma center_of_a_nan b :
  has_nan b = true ->
  Prim2SF (fst (_bbox_center b)) = S754_nan \/
  Prim2SF (snd (_bbox_center b)) = S754_nan.
Proof.
  destruct b as [[[x1 y1] x2] y2]. unfold has_nan, _bbox_center. simpl.
  intros H. repeat (apply orb_prop in H; destruct H as [H | H]);
    apply is_nan_Prim2SF in H.
  - left. apply nan_div_l. now apply nan_add_l.
  - right. apply nan_div_l. now apply nan_add_l.
  - left. apply nan_div_l. now apply nan_add_r.
  - right. apply nan_div_l. now apply nan_add_r.
Qed.

Lemma close_with_a_nan {rt : Runtime} person forklift :
  has_nan (bbox person) = true \/ has_nan (bbox forklift) = true ->
  close person forklift = false.
Proof.
  intros Hnan. unfold close, center_distance.
  pose proof (distance_of_a_nan (_bbox_center (bbox person))
                                (_bbox_center (bbox forklift))) as Hd.
  destruct (_euclidean_distance _ _) as [e | distance]; [reflexivity|].
  apply nan_not_below. apply Hd.
  destruct Hnan as [H | H]; apply center_of_a_nan in H; tauto.
Qed.

(** X22.  A box with a NaN is never proximity evidence.  Whenever
    [evaluate] returns, no violation with two-box evidence shows a box one
    of whose coordinates is a NaN: the distance to such a box is a NaN, and
    a NaN is not below the threshold. *)
Theorem nan_boxes_are_never_close {rt : Runtime}
        self dets self' vs v person_bbox forklift_bbox :
  evaluate dets self = (self', inr vs) ->
  In v vs ->
  v_evidence v = TwoBoxes person_bbox forklift_bbox ->
  has_nan person_bbox = false /\ has_nan forklift_bbox = false.
Proof.
  intros Hev Hv Hevidence.
  apply evaluate_returns in Hev. destruct Hev as (_ & -> & _ & _).
  apply in_app_iff in Hv. destruct Hv as [Hd | Hc].
  - apply direct_origin in Hd. destruct Hd as (det & m & _ & _ & ->).
    discriminate Hevidence.
  - apply compound_origin in Hc.
    destruct Hc as (p & f & m & _ & _ & _ & _ & Hclose & _ & ->).
    simpl in Hevidence. injection Hevidence as <- <-.
    destruct (has_nan (bbox p)) eqn:Hp.
    + rewrite close_with_a_nan in Hclose; [discriminate | now left].
    + destruct (has_nan (bbox f)) eqn:Hf; [|auto].
      rewrite close_with_a_nan in Hclose; [discriminate | now right].
Qed.

Lemma nan_boxes_are_never_close_witness :
  has_nan (bbox person_100) = false /\ has_nan (bbox forklift_150) = false.
Proof.
  apply (nan_boxes_are_never_close
           proximity_engine [person_100; nan_forklift; forklift_150]
           proximity_engine
           [compound_violation person_100 forklift_150 proximity_match]
           (compound_violation person_100 forklift_150 proximity_match)).
  - reflexivity.
  - simpl; auto.
  - reflexivity.
Defined.

(** * Fields that lookup does not read *)

Lemma lookup_entry_same_fields {rt : Runtime}
      c std_name citation fields fields' :
  (forall key, In key ["condition"; "description"; "severity"] ->
               PyDict.get fields key = PyDict.get fields' key) ->
  lookup_entry c std_name (citation, JObject fields)
  = lookup_entry c std_name (citation, JObject fields').
Proof.
  intros Hsame. unfold lookup_entry, applies_to, rule_entry, field. simpl.
  rewrite !(Hsame "condition"), !(Hsame "description"), !(Hsame "severity");
    simpl; auto.
Qed.

Lemma store_ok_same_shape s1 std_name e1 citation fields fields' e2 s2 :
  store_ok (s1 ++ (std_name, JObject (e1 ++ (citation, JObject fields) :: e2))
               :: s2)
  = store_ok (s1 ++ (std_name,
                     JObject (e1 ++ (citation, JObject fields') :: e2))
                 :: s2).
Proof.
  unfold store_ok. rewrite !forallb_app. simpl.
  unfold doc_ok; simpl. now rewrite !forallb_app.
Qed.

(** X23.  Lookup reads three fields of an entry and no other.  Two stores
    that differ in one entry give the same outcome for every condition as
    soon as the two versions of the entry agree on "condition",
    "description" and "severity": further fields of a rule entry are
    ignored, whatever they hold. *)
Theorem lookup_reads_three_fields {rt : Runtime}
        c s1 std_name e1 citation fields fields' e2 s2 :
  (forall key, In key ["condition"; "description"; "severity"] ->
               PyDict.get fields key = PyDict.get fields' key) ->
  snd (_lookup_condition c
         (mkEngine (s1 ++ (std_name,
                           JObject (e1 ++ (citation, JObject fields) :: e2))
                       :: s2)))
  = snd (_lookup_condition c
           (mkEngine (s1 ++ (std_name,
                             JObject (e1 ++ (citation, JObject fields') :: e2))
                         :: s2))).
Proof.
  intros Hsame.
  pose proof (store_ok_same_shape s1 std_name e1 citation fields fields' e2 s2)
    as Hshape.
  destruct (store_ok (s1 ++ (std_name,
                             JObject (e1 ++ (citation, JObject fields) :: e2))
                         :: s2)) eqn:Hok.
  - rewrite !_lookup_condition_ok by (simpl; congruence). simpl. f_equal.
    rewrite !lookup_app. f_equal. unfold lookup; simpl. f_equal.
    unfold lookup_doc; simpl. rewrite !flat_map_app. f_equal. simpl.
    f_equal. now apply lookup_entry_same_fields.
  - rewrite !_lookup_condition_raises by (simpl; congruence). reflexivity.
Qed.

Lemma lookup_reads_three_fields_witness :
  snd (_lookup_condition "hardhat_missing"
         (mkEngine ([] ++ ("osha",
                           JObject ([] ++ ("1926.100",
                                           JObject
                                             [("condition",
                                               JString "hardhat_missing");
                                              ("description",
                                               JString
                                                 "Head protection required");
                                              ("severity", JString "high")])
                                       :: []))
                       :: [])))
  = snd (_lookup_condition "hardhat_missing"
           (mkEngine ([] ++ ("osha",
                             JObject ([] ++ ("1926.100",
                                             JObject
                                               [("url", JString "osha.gov");
                                                ("condition",
                                                 JString "hardhat_missing");
                                                ("penalty", JInt 500);
                                                ("description",
                                                 JString
                                                   "Head protection required");
                                                ("severity", JString "high")])
                                         :: []))
                         :: []))).
Proof.
  apply (lookup_reads_three_fields "hardhat_missing" [] "osha" [] "1926.100").
  intros key [<- | [<- | [<- | []]]]; reflexivity.
Defined.
